(** * sqinch: the catalog space-efficiency pipeline of [utils/sqinchProcessor.ts]

    A shallow embedding of the analysis pipeline and the properties its
    specification states about it.

    - JavaScript numbers are IEEE 754 binary64 values: they are modelled by
      Rocq's primitive floats, so [+], [*] and [/] below are the very
      operations the program performs, with their NaN, infinities and signed
      zeros.
    - Arrays are lists.  An object used as a dictionary ([_.groupBy]) is an
      association list kept in the order in which JavaScript enumerates own
      properties.
    - Strings are sequences of 8-bit code units, compared code unit by code
      unit.
    - Code that can throw returns in [Except]. *)

From Stdlib Require Import List String Ascii Bool Arith ZArith NArith Lia.
From Stdlib Require Import Permutation Sorted Floats Uint63.
Import ListNotations.

(* Decimal literals stand for the nearest binary64 value, as they do in
   JavaScript. *)
#[local] Set Warnings "-inexact-float".

Local Open Scope string_scope.
Local Open Scope list_scope.

(* ================================================================== *)
(** * JavaScript values *)

Module Js.

(** ** Numbers *)

Definition number := float.

Definition NaN : number := nan.

(** [array.length], a non-negative integer below 2^32, as a number. *)
Definition of_length (n : nat) : number :=
  of_uint63 (Uint63.of_Z (Z.of_nat n)).

(** [Math.round]: the integral number closest to [x], ties going towards
    +Infinity; NaN, the infinities and integral values are returned
    unchanged, and a result of zero keeps the sign of [x].  For
    [x = (-1)^s * m * 2^e] with [e < 0] the result is [floor (x + 1/2)],
    computed exactly on integers. *)
Definition Math_round (x : number) : number :=
  match Prim2SF x with
  | S754_finite s m e =>
      if (0 <=? e)%Z then x
      else
        let v := if s then Z.neg m else Z.pos m in
        let n := ((2 * v + 2 ^ (- e)) / 2 ^ (1 - e))%Z in
        if (n =? 0)%Z then (if s then neg_zero else zero)
        else if (n <? 0)%Z then (- of_uint63 (Uint63.of_Z (- n)))%float
        else of_uint63 (Uint63.of_Z n)
  | _ => x
  end.

(** The property key a number is converted to when it indexes an object.
    [ToString] is injective on numbers except that [+0] and [-0] both give
    ["0"]; the key is therefore represented by the number itself with [-0]
    mapped to [+0], and two keys are the same property exactly when they
    are equal. *)
Definition propertyKey (x : number) : number :=
  if (x =? 0)%float then zero else x.

(** ** Strings *)

Fixpoint digitsValue (s : string) (acc : N) : option N :=
  match s with
  | EmptyString => Some acc
  | String c s' =>
      let n := N_of_ascii c in
      if ((48 <=? n) && (n <=? 57))%N
      then digitsValue s' (acc * 10 + (n - 48))%N
      else None
  end.

(** A property name is an array index when it is the canonical decimal form
    of an integer in [0, 2^32 - 2]. *)
Definition arrayIndex (s : string) : option N :=
  match s with
  | EmptyString => None
  | String c s' =>
      if Ascii.eqb c "0"
      then (if String.eqb s' "" then Some 0%N else None)
      else match digitsValue s 0 with
           | Some n => if (n <? 4294967295)%N then Some n else None
           | None => None
           end
  end.

(** [Array.prototype.join]. *)
Definition join (sep : string) (l : list string) : string :=
  String.concat sep l.

(** [String.prototype.split] with a non-empty separator: the string is cut
    at the successive occurrences of [sep], scanned from the left.  [skip]
    counts the code units of a matched separator still to be passed over;
    [cur] is the piece being read. *)
Fixpoint splitFrom (sep : string) (skip : nat) (cur : string) (s : string)
  : list string :=
  match s with
  | EmptyString => [cur]
  | String c s' =>
      match skip with
      | S k => splitFrom sep k cur s'
      | O =>
          if String.prefix sep s
          then cur :: splitFrom sep (String.length sep - 1) "" s'
          else splitFrom sep 0 (cur ++ String c "")%string s'
      end
  end.

Definition split (sep : string) (s : string) : list string :=
  splitFrom sep 0 "" s.

(** [Array.prototype.sort] without a comparator, on strings: ascending
    order of code units, stable. *)
Fixpoint sortInsert (x : string) (l : list string) : list string :=
  match l with
  | [] => [x]
  | y :: l' => if String.ltb y x then y :: sortInsert x l' else x :: l
  end.

Definition sort (l : list string) : list string :=
  fold_right sortInsert [] l.

(** ** Arrays *)

(** [a[i]] is [undefined] outside [0 .. length - 1]. *)
Definition at_ {A} (l : list A) (i : Z) : option A :=
  if (i <? 0)%Z then None else nth_error l (Z.to_nat i).

(** ** Exceptions *)

(** A thrown value: an [Error] object with its message, or anything else. *)
Inductive thrown :=
| Error (message : string)
| NotAnError.

Inductive Except (A : Type) :=
| Return (a : A)
| Throw (e : thrown).
Arguments Return {A} a.
Arguments Throw {A} e.

Definition bind {A B} (m : Except A) (k : A -> Except B) : Except B :=
  match m with
  | Return a => k a
  | Throw e => Throw e
  end.

(** Reading a property of [undefined] throws a [TypeError]. *)
Definition propertyOf {A} (o : option A) : Except A :=
  match o with
  | Some a => Return a
  | None => Throw (Error "Cannot read properties of undefined")
  end.

Fixpoint mapM {A B} (f : A -> Except B) (l : list A) : Except (list B) :=
  match l with
  | [] => Return []
  | a :: l' =>
      bind (f a) (fun b => bind (mapM f l') (fun bs => Return (b :: bs)))
  end.

End Js.

Import Js.

Notation "x <- m ;; k" := (Js.bind m (fun x => k))
  (at level 61, m at next level, right associativity).

(* ================================================================== *)
(** * The lodash functions the pipeline uses *)

Module Lodash.

Section Collections.

Context {A : Type}.

(** [_.sumBy]: 0 on an empty array, otherwise the values added from the
    left, starting from the first one. *)
Definition sumBy (f : A -> number) (l : list A) : number :=
  match l with
  | [] => zero
  | x :: xs => fold_left (fun acc y => (acc + f y)%float) xs (f x)
  end.

(** [_.meanBy]: NaN on an empty array. *)
Definition meanBy (f : A -> number) (l : list A) : number :=
  match l with
  | [] => NaN
  | _ => (sumBy f l / of_length (List.length l))%float
  end.

(** [_.maxBy]: the first element whose value no later value exceeds; NaN
    values are skipped until a first number is found, and the result is
    [undefined] when there is none. *)
Fixpoint maxFrom (f : A -> number) (best : option A) (l : list A) : option A :=
  match l with
  | [] => best
  | x :: xs =>
      match best with
      | None => maxFrom f (if is_nan (f x) then None else Some x) xs
      | Some b => maxFrom f (if (f b <? f x)%float then Some x else best) xs
      end
  end.

Definition maxBy (f : A -> number) (l : list A) : option A :=
  maxFrom f None l.

(** [_.uniqBy] on a string key: the first element of each key. *)
Fixpoint uniqFrom (key : A -> string) (seen : list string) (l : list A)
  : list A :=
  match l with
  | [] => []
  | x :: xs =>
      if existsb (String.eqb (key x)) seen then uniqFrom key seen xs
      else x :: uniqFrom key (key x :: seen) xs
  end.

Definition uniqBy (key : A -> string) (l : list A) : list A :=
  uniqFrom key [] l.

(** [_.groupBy]: each element is pushed on the array of its key, a new key
    being added after the existing ones. *)
Section Grouping.

Context {K : Type} (eqb : K -> K -> bool).

Fixpoint groupInsert (k : K) (a : A) (groups : list (K * list A))
  : list (K * list A) :=
  match groups with
  | [] => [(k, [a])]
  | (k', g) :: rest =>
      if eqb k' k then (k', g ++ [a]) :: rest
      else (k', g) :: groupInsert k a rest
  end.

Definition groupInsertion (key : A -> K) (l : list A) : list (K * list A) :=
  fold_left (fun groups a => groupInsert (key a) a groups) l [].

(** [object[k]]. *)
Fixpoint lookup (k : K) (groups : list (K * A)) : option A :=
  match groups with
  | [] => None
  | (k', v) :: rest => if eqb k' k then Some v else lookup k rest
  end.

End Grouping.

(** Own properties are enumerated with the array-index names first, in
    ascending numeric order, then the other names in the order in which
    they were created. *)
Fixpoint indexInsert (e : N * (string * A)) (l : list (N * (string * A)))
  : list (N * (string * A)) :=
  match l with
  | [] => [e]
  | e' :: l' => if (fst e' <? fst e)%N then e' :: indexInsert e l' else e :: l
  end.

Fixpoint indexEntries (l : list (string * A)) : list (N * (string * A)) :=
  match l with
  | [] => []
  | e :: l' =>
      match arrayIndex (fst e) with
      | Some n => (n, e) :: indexEntries l'
      | None => indexEntries l'
      end
  end.

Definition isName (e : string * A) : bool :=
  match arrayIndex (fst e) with Some _ => false | None => true end.

Definition ownEntries (l : list (string * A)) : list (string * A) :=
  map snd (fold_right indexInsert [] (indexEntries l)) ++ filter isName l.

End Collections.

(** [_.groupBy] on a string key, as the object lodash builds. *)
Definition groupBy {A} (key : A -> string) (l : list A)
  : list (string * list A) :=
  ownEntries (groupInsertion String.eqb key l).

(** [_.groupBy] on a number key.  The pipeline only looks pages up in this
    object, so its entries are kept in the order of creation. *)
Definition groupByNumber {A} (key : A -> number) (l : list A)
  : list (number * list A) :=
  groupInsertion PrimFloat.Leibniz.eqb (fun a => propertyKey (key a)) l.

Definition lookupNumber {A} (k : number) (o : list (number * A)) : option A :=
  lookup PrimFloat.Leibniz.eqb (propertyKey k) o.

(** [_.mapValues]. *)
Definition mapValues {K A B} (f : A -> B) (o : list (K * A)) : list (K * B) :=
  map (fun kv => (fst kv, f (snd kv))) o.

(** lodash's [compareAscending] on numbers: NaN sorts after every number. *)
Definition compareAscending (value other : number) : comparison :=
  if (value =? other)%float then Eq
  else if (other <? value)%float || is_nan value then Gt
  else if (value <? other)%float || is_nan other then Lt
  else Eq.

(** [_.orderBy (rows, key, 'desc')]: a stable sort, rows of equal key
    staying in their input order.  [a] is placed before a later row [b]
    unless [b]'s key is strictly greater.

    This is what [Array.prototype.sort] returns whenever lodash's comparator
    is a consistent order, that is when at most one row has a NaN key.
    Between two rows with NaN keys the comparator answers "before" in both
    directions, and the place of such rows is then left to the engine's
    sorting algorithm, which may for instance return them reversed; nothing
    below depends on the relative order of rows with NaN keys. *)
Section OrderBy.

Context {A : Type} (key : A -> number).

Fixpoint orderInsert (a : A) (sorted : list A) : list A :=
  match sorted with
  | [] => [a]
  | b :: rest =>
      match compareAscending (key a) (key b) with
      | Lt => b :: orderInsert a rest
      | _ => a :: sorted
      end
  end.

Definition orderByDesc (l : list A) : list A :=
  fold_right orderInsert [] l.

End OrderBy.

End Lodash.

Import Lodash.

(* ================================================================== *)
(** * Data model *)

Module ProductRecord.
Record t := mk {
  Product_Name : string;
  Product_Sales_Revenue : number;
  Units_Sold : number;
  Square_Inches : number;
  Page_Number : number;
  Catalog_Price : number
}.
End ProductRecord.

Module CustomerRecord.
Record t := mk {
  Customer_Email : string;
  Product_Name : string;
  Units_Purchased : number;
  Revenue_Generated : number;
  Age_Range : string;
  Income_Tier : string;
  Location : string
}.
End CustomerRecord.

(** [EnrichedProduct extends ProductRecord]: [product] holds the fields
  spread from the product record. *)
Module EnrichedProduct.
Record t := mk {
  product : ProductRecord.t;
  revenuePerSqIn : number;
  spaceEfficiencyIndex : number;
  catalogAvgRevenuePerSqIn : number;
  pageAvgRevenuePerSqIn : number;
  pagePositionRatio : number
}.
Definition Product_Name (p : t) := ProductRecord.Product_Name (product p).
Definition Product_Sales_Revenue (p : t) :=
  ProductRecord.Product_Sales_Revenue (product p).
Definition Square_Inches (p : t) := ProductRecord.Square_Inches (product p).
Definition Page_Number (p : t) := ProductRecord.Page_Number (product p).
End EnrichedProduct.

Module SegmentAnalysis.
Record t := mk {
  segment : string;
  customers : nat;
  totalRevenue : number;
  weightedAvgSEI : number;
  spaceConsumed : number;
  revenuePerSqIn : number
}.
End SegmentAnalysis.

Module AffinityAnalysis.
Record t := mk {
  anchorProduct : string;
  anchorSEI : number;
  boughtWithProduct : string;
  boughtWithSEI : number;
  coPurchases : nat;
  combinedEfficiency : number
}.
End AffinityAnalysis.

Module CustomerProfile.
Record t := mk {
  customerEmail : string;
  ageRange : string;
  incomeTier : string;
  productsBought : nat;
  totalSpent : number;
  avgSEI : number;
  revenueWeightedSEI : number
}.
End CustomerProfile.

(** The rows the segment aggregator works on: a customer record joined with
  its product's index and area, then labelled with its segment. *)
Module SegmentedRecord.
Record t := mk {
  record : CustomerRecord.t;
  spaceEfficiencyIndex : number;
  Square_Inches : number;
  segment : string
}.
Definition Customer_Email (r : t) := CustomerRecord.Customer_Email (record r).
Definition Units_Purchased (r : t) := CustomerRecord.Units_Purchased (record r).
Definition Revenue_Generated (r : t) :=
  CustomerRecord.Revenue_Generated (record r).
End SegmentedRecord.

(** The rows the customer profiler works on. *)
Module EnrichedCustomer.
Record t := mk {
  record : CustomerRecord.t;
  spaceEfficiencyIndex : number
}.
Definition Customer_Email (r : t) := CustomerRecord.Customer_Email (record r).
Definition Revenue_Generated (r : t) :=
  CustomerRecord.Revenue_Generated (record r).
End EnrichedCustomer.

Module CoPurchase.
Record t := mk {
  customer : string;
  product1 : string;
  product2 : string
}.
End CoPurchase.

Module PageMetric.
Record t := mk {
  pageAvgRevenuePerSqIn : number;
  productCount : nat
}.
End PageMetric.

Module InsightSummaries.
Record segmentInsights := mkSegment {
  topSegment : option SegmentAnalysis.t;
  bottomSegment : option SegmentAnalysis.t;
  highestEfficiencySegment : option SegmentAnalysis.t;
  totalSegments : nat
}.
Record affinityInsights := mkAffinity {
  topAffinity : option AffinityAnalysis.t;
  totalAffinityPairs : nat;
  highEfficiencyPairs : nat
}.
Record customerInsights := mkCustomer {
  topCustomer : option CustomerProfile.t;
  avgCustomerSEI : number;
  multiProductCustomers : nat;
  totalCustomers : nat
}.
Record t := mk {
  segmentInsights_ : segmentInsights;
  affinityInsights_ : affinityInsights;
  customerInsights_ : customerInsights
}.
End InsightSummaries.

Module ProcessingResults.
Record data_t := mkData {
  productMetrics : list EnrichedProduct.t;
  segmentAnalysis : list SegmentAnalysis.t;
  affinityAnalysis : list AffinityAnalysis.t;
  customerProfiles : list CustomerProfile.t;
  insightSummaries : InsightSummaries.t
}.
Record t := mk {
  success : bool;
  data : option data_t;
  error : option string
}.
End ProcessingResults.

(* ================================================================== *)
(** * The pipeline *)

Local Open Scope float_scope.

(** [Math.round (x * 10) / 10] and [Math.round (x * 100) / 100]. *)
Definition round1 (x : number) : number := Math_round (x * 10) / 10.
Definition round2 (x : number) : number := Math_round (x * 100) / 100.

Definition calculateProductMetrics (productData : list ProductRecord.t)
  : list EnrichedProduct.t :=
  let totalRevenue := sumBy ProductRecord.Product_Sales_Revenue productData in
  let totalSquareInches := sumBy ProductRecord.Square_Inches productData in
  let catalogAvgRevenuePerSqIn := totalRevenue / totalSquareInches in
  map (fun product =>
         let revenuePerSqIn :=
           ProductRecord.Product_Sales_Revenue product
           / ProductRecord.Square_Inches product in
         let spaceEfficiencyIndex :=
           (revenuePerSqIn / catalogAvgRevenuePerSqIn) * 100 in
         EnrichedProduct.mk product revenuePerSqIn spaceEfficiencyIndex
           catalogAvgRevenuePerSqIn 0 0)
      productData.

Definition pageMetricsOf (enrichedProducts : list EnrichedProduct.t)
  : list (number * PageMetric.t) :=
  let pageGroups := groupByNumber EnrichedProduct.Page_Number enrichedProducts in
  mapValues (fun productsOnPage =>
               let totalPageRevenue :=
                 sumBy EnrichedProduct.Product_Sales_Revenue productsOnPage in
               let totalPageSquareInches :=
                 sumBy EnrichedProduct.Square_Inches productsOnPage in
               PageMetric.mk (totalPageRevenue / totalPageSquareInches)
                 (List.length productsOnPage))
            pageGroups.

(** [pageMetrics[product['Page Number']].pageAvgRevenuePerSqIn] throws when the
    page has no entry. *)
Definition calculatePageMetrics (enrichedProducts : list EnrichedProduct.t)
  : Except (list EnrichedProduct.t) :=
  let pageMetrics := pageMetricsOf enrichedProducts in
  mapM (fun product =>
          m1 <- propertyOf
                  (lookupNumber (EnrichedProduct.Page_Number product) pageMetrics) ;;
          m2 <- propertyOf
                  (lookupNumber (EnrichedProduct.Page_Number product) pageMetrics) ;;
          Return (EnrichedProduct.mk
                    (EnrichedProduct.product product)
                    (EnrichedProduct.revenuePerSqIn product)
                    (EnrichedProduct.spaceEfficiencyIndex product)
                    (EnrichedProduct.catalogAvgRevenuePerSqIn product)
                    (PageMetric.pageAvgRevenuePerSqIn m1)
                    (EnrichedProduct.revenuePerSqIn product
                     / PageMetric.pageAvgRevenuePerSqIn m2)))
       enrichedProducts.

(** [productMetrics.find (p => p['Product Name'] === name)]. *)
Definition findProduct (productMetrics : list EnrichedProduct.t) (name : string)
  : option EnrichedProduct.t :=
  find (fun p => String.eqb (EnrichedProduct.Product_Name p) name) productMetrics.

(** [xs.map (f).filter (r => r !== null)]. *)
Fixpoint mapNonNull {A B} (f : A -> option B) (l : list A) : list B :=
  match l with
  | [] => []
  | a :: l' =>
      match f a with
      | Some b => b :: mapNonNull f l'
      | None => mapNonNull f l'
      end
  end.

Definition segmentLabel (r : CustomerRecord.t) : string :=
  (CustomerRecord.Income_Tier r ++ " Income " ++ CustomerRecord.Location r)%string.

Definition joinSegment (productMetrics : list EnrichedProduct.t)
  (customerRecord : CustomerRecord.t) : option SegmentedRecord.t :=
  match findProduct productMetrics (CustomerRecord.Product_Name customerRecord) with
  | None => None
  | Some productMatch =>
      Some (SegmentedRecord.mk customerRecord
              (EnrichedProduct.spaceEfficiencyIndex productMatch)
              (EnrichedProduct.Square_Inches productMatch)
              (segmentLabel customerRecord))
  end.

Definition segmentRow (group : string * list SegmentedRecord.t)
  : SegmentAnalysis.t :=
  let '(segment, records) := group in
  let uniqueCustomers :=
    List.length (uniqBy SegmentedRecord.Customer_Email records) in
  let totalRevenue := sumBy SegmentedRecord.Revenue_Generated records in
  let totalSpaceConsumed :=
    sumBy (fun record => SegmentedRecord.Units_Purchased record
                         * SegmentedRecord.Square_Inches record) records in
  let weightedSEI :=
    sumBy (fun record => SegmentedRecord.Revenue_Generated record
                         * SegmentedRecord.spaceEfficiencyIndex record) records
    / totalRevenue in
  SegmentAnalysis.mk segment uniqueCustomers totalRevenue
    (round1 weightedSEI) totalSpaceConsumed
    (round2 (totalRevenue / totalSpaceConsumed)).

Definition generateSegmentAnalysis (customerData : list CustomerRecord.t)
  (productMetrics : list EnrichedProduct.t) : list SegmentAnalysis.t :=
  let segmentedData := mapNonNull (joinSegment productMetrics) customerData in
  let segmentGroups := groupBy SegmentedRecord.segment segmentedData in
  let segmentAnalysis := map segmentRow segmentGroups in
  orderByDesc SegmentAnalysis.revenuePerSqIn segmentAnalysis.

(** The two nested loops over a customer's purchases: every row is paired
    with each later row. *)
Fixpoint pairsOf (customerEmail : string) (purchases : list CustomerRecord.t)
  : list CoPurchase.t :=
  match purchases with
  | [] => []
  | p :: later =>
      map (fun q => CoPurchase.mk customerEmail
                      (CustomerRecord.Product_Name p)
                      (CustomerRecord.Product_Name q)) later
      ++ pairsOf customerEmail later
  end.

Definition coPurchasesOf (customerData : list CustomerRecord.t)
  : list CoPurchase.t :=
  let customerGroups := groupBy CustomerRecord.Customer_Email customerData in
  flat_map (fun group : string * list CustomerRecord.t =>
              let '(customerEmail, purchases) := group in
              if (1 <? List.length purchases)%nat
              then pairsOf customerEmail purchases
              else [])
           customerGroups.

Definition pairKey (record : CoPurchase.t) : string :=
  join " + " (sort [CoPurchase.product1 record; CoPurchase.product2 record]).

Definition affinityRow (productMetrics : list EnrichedProduct.t)
  (group : string * list CoPurchase.t) : option AffinityAnalysis.t :=
  let '(productPair, records) := group in
  let parts := split " + " productPair in
  match at_ parts 0, at_ parts 1 with
  | Some product1, Some product2 =>
      match findProduct productMetrics product1,
            findProduct productMetrics product2 with
      | Some product1Metrics, Some product2Metrics =>
          Some (AffinityAnalysis.mk
                  product1
                  (round1 (EnrichedProduct.spaceEfficiencyIndex product1Metrics))
                  product2
                  (round1 (EnrichedProduct.spaceEfficiencyIndex product2Metrics))
                  (List.length records)
                  (Math_round
                     ((EnrichedProduct.spaceEfficiencyIndex product1Metrics
                       + EnrichedProduct.spaceEfficiencyIndex product2Metrics)
                      / 2 * 10) / 10))
      | _, _ => None
      end
  | _, _ => None
  end.

Definition generateAffinityAnalysis (customerData : list CustomerRecord.t)
  (productMetrics : list EnrichedProduct.t) : list AffinityAnalysis.t :=
  let coPurchases := coPurchasesOf customerData in
  let affinityGroups := groupBy pairKey coPurchases in
  let affinityAnalysis := mapNonNull (affinityRow productMetrics) affinityGroups in
  orderByDesc AffinityAnalysis.combinedEfficiency affinityAnalysis.

Definition joinProfile (productMetrics : list EnrichedProduct.t)
  (record : CustomerRecord.t) : option EnrichedCustomer.t :=
  match findProduct productMetrics (CustomerRecord.Product_Name record) with
  | None => None
  | Some productMatch =>
      Some (EnrichedCustomer.mk record
              (EnrichedProduct.spaceEfficiencyIndex productMatch))
  end.

(** [purchases[0]] is read for the demographic fields; it would throw on an
    empty group. *)
Definition profileRow (group : string * list EnrichedCustomer.t)
  : Except CustomerProfile.t :=
  let '(customerEmail, purchases) := group in
  let totalSpent := sumBy EnrichedCustomer.Revenue_Generated purchases in
  let productsCount := List.length purchases in
  let avgSEI := meanBy EnrichedCustomer.spaceEfficiencyIndex purchases in
  let revenueWeightedSEI :=
    sumBy (fun purchase => EnrichedCustomer.Revenue_Generated purchase
                           * EnrichedCustomer.spaceEfficiencyIndex purchase)
          purchases
    / totalSpent in
  customerInfo <- propertyOf (at_ purchases 0) ;;
  Return (CustomerProfile.mk customerEmail
            (CustomerRecord.Age_Range (EnrichedCustomer.record customerInfo))
            (CustomerRecord.Income_Tier (EnrichedCustomer.record customerInfo))
            productsCount totalSpent (round1 avgSEI) (round1 revenueWeightedSEI)).

Definition generateCustomerProfiles (customerData : list CustomerRecord.t)
  (productMetrics : list EnrichedProduct.t) : Except (list CustomerProfile.t) :=
  let enrichedCustomerData := mapNonNull (joinProfile productMetrics) customerData in
  let customerGroups := groupBy EnrichedCustomer.Customer_Email enrichedCustomerData in
  customerProfiles <- mapM profileRow customerGroups ;;
  Return (orderByDesc CustomerProfile.revenueWeightedSEI customerProfiles).

Definition generateInsightSummaries
  (segmentAnalysis : list SegmentAnalysis.t)
  (affinityAnalysis : list AffinityAnalysis.t)
  (customerProfiles : list CustomerProfile.t) : InsightSummaries.t :=
  InsightSummaries.mk
    (InsightSummaries.mkSegment
       (at_ segmentAnalysis 0)
       (at_ segmentAnalysis (Z.of_nat (List.length segmentAnalysis) - 1))
       (maxBy SegmentAnalysis.weightedAvgSEI segmentAnalysis)
       (List.length segmentAnalysis))
    (InsightSummaries.mkAffinity
       (at_ affinityAnalysis 0)
       (List.length affinityAnalysis)
       (List.length
          (filter (fun pair => 150 <? AffinityAnalysis.combinedEfficiency pair)
                  affinityAnalysis)))
    (InsightSummaries.mkCustomer
       (at_ customerProfiles 0)
       (meanBy CustomerProfile.avgSEI customerProfiles)
       (List.length
          (filter (fun c => (1 <? CustomerProfile.productsBought c)%nat)
                  customerProfiles))
       (List.length customerProfiles)).

Section EntryPoint.

(** [Papa.parse (file, {header, dynamicTyping, skipEmptyLines}).data], cast to
    the record type.  The CSV parser is an external library: it is a
    parameter of the entry point. *)
Variable parseProducts : string -> Except (list ProductRecord.t).
Variable parseCustomers : string -> Except (list CustomerRecord.t).

Definition loadDatasets (productFile customerFile : string)
  : Except (list ProductRecord.t * list CustomerRecord.t) :=
  productData <- parseProducts productFile ;;
  customerData <- parseCustomers customerFile ;;
  Return (productData, customerData).

(** The body of the [try] block. *)
Definition analyse (productFile customerFile : string)
  : Except ProcessingResults.data_t :=
  datasets <- loadDatasets productFile customerFile ;;
  let '(productData, customerData) := datasets in
  let productMetrics := calculateProductMetrics productData in
  enrichedProducts <- calculatePageMetrics productMetrics ;;
  let segmentAnalysis := generateSegmentAnalysis customerData enrichedProducts in
  let affinityAnalysis := generateAffinityAnalysis customerData enrichedProducts in
  customerProfiles <- generateCustomerProfiles customerData enrichedProducts ;;
  let insightSummaries :=
    generateInsightSummaries segmentAnalysis affinityAnalysis customerProfiles in
  Return (ProcessingResults.mkData enrichedProducts segmentAnalysis
            affinityAnalysis customerProfiles insightSummaries).

Definition processFullAnalysis (productFile customerFile : string)
  : ProcessingResults.t :=
  match analyse productFile customerFile with
  | Return data => ProcessingResults.mk true (Some data) None
  | Throw e =>
      ProcessingResults.mk false None
        (Some match e with
              | Error message => message
              | NotAnError => "Unknown error occurred"
              end)
  end.

End EntryPoint.

(* ================================================================== *)
(** * The page component ([app/page.tsx])

    [handleAnalysis] is an asynchronous handler: it calls the state setters
    of [Home] one after the other and is suspended at each [await], where
    the component may render again and other handlers may run.  What is
    modelled is the sequence of setter calls the handler itself makes, in
    order; the state of the component after the handler is not, since it
    also depends on what runs in between. *)

Module Home.

Record tabInsight := mkInsight {
  content : string;
  loading : bool
}.

(** A selected [File]: [text()] resolves with the text of the file or
    rejects with a thrown value. *)
Record file := mkFile {
  text : Except string
}.

(** A call to one of the state setters. *)
Inductive update :=
| SetResults (v : ProcessingResults.data_t)
| SetLoading (v : bool)
| SetTabInsights (v : list (string * tabInsight))
| SetError (v : string).

(** [analysisResults.error || 'Analysis failed']: an absent or empty message
    gives the fallback. *)
Definition errorOr (error : option string) (fallback : string) : string :=
  match error with
  | Some message => if String.eqb message "" then fallback else message
  | None => fallback
  end.

Section HandleAnalysis.

Variable parseProducts : string -> Except (list ProductRecord.t).
Variable parseCustomers : string -> Except (list CustomerRecord.t).

(** The body of the [try] block: the setter calls it makes, or the value
    thrown by a rejected [text()]. *)
Definition tryAnalysis (productFile customerFile : file) : Except (list update) :=
  productText <- text productFile ;;
  customerText <- text customerFile ;;
  let analysisResults :=
    processFullAnalysis parseProducts parseCustomers productText customerText in
  match ProcessingResults.success analysisResults,
        ProcessingResults.data analysisResults with
  | true, Some data => Return [SetResults data]
  | _, _ =>
      Return [SetError (errorOr (ProcessingResults.error analysisResults)
                                "Analysis failed")]
  end.

Definition handleAnalysis (productFile customerFile : option file) : list update :=
  match productFile, customerFile with
  | Some productFile, Some customerFile =>
      [SetLoading true; SetError ""; SetTabInsights []]
      ++ match tryAnalysis productFile customerFile with
         | Return updates => updates
         | Throw err =>
             [SetError match err with
                       | Error message => message
                       | NotAnError => "An error occurred"
                       end]
         end
      ++ [SetLoading false]
  | _, _ => [SetError "Please select both CSV files"]
  end.

End HandleAnalysis.

End Home.

(* ================================================================== *)
(** * Vocabulary of the specification *)

(** The purchase rows of a customer. *)
Definition rowsOf (customerEmail : string) (customerData : list CustomerRecord.t)
  : list CustomerRecord.t :=
  filter (fun r => String.eqb customerEmail (CustomerRecord.Customer_Email r))
         customerData.

(** The candidate pairs a customer contributes. *)
Definition pairsOfCustomer (customerEmail : string)
  (customerData : list CustomerRecord.t) : list CoPurchase.t :=
  filter (fun cp => String.eqb (CoPurchase.customer cp) customerEmail)
         (coPurchasesOf customerData).

(** The products that share the page of number [pageNumber]. *)
Definition productsOnPage (enrichedProducts : list EnrichedProduct.t)
  (pageNumber : number) : list EnrichedProduct.t :=
  filter (fun q => PrimFloat.Leibniz.eqb
                     (propertyKey pageNumber)
                     (propertyKey (EnrichedProduct.Page_Number q)))
         enrichedProducts.

(** The page average of that page. *)
Definition pageAverage (enrichedProducts : list EnrichedProduct.t)
  (pageNumber : number) : number :=
  (sumBy EnrichedProduct.Product_Sales_Revenue
         (productsOnPage enrichedProducts pageNumber)
   / sumBy EnrichedProduct.Square_Inches
           (productsOnPage enrichedProducts pageNumber))%float.

(** A product row with its page fields filled in. *)
Definition withPageMetrics (enrichedProducts : list EnrichedProduct.t)
  (product : EnrichedProduct.t) : EnrichedProduct.t :=
  let pageAvg := pageAverage enrichedProducts (EnrichedProduct.Page_Number product) in
  EnrichedProduct.mk
    (EnrichedProduct.product product)
    (EnrichedProduct.revenuePerSqIn product)
    (EnrichedProduct.spaceEfficiencyIndex product)
    (EnrichedProduct.catalogAvgRevenuePerSqIn product)
    pageAvg
    (EnrichedProduct.revenuePerSqIn product / pageAvg)%float.

(** Two page numbers name the same page when they give the same property
    key. *)
Definition samePage (p q : ProductRecord.t) : bool :=
  PrimFloat.Leibniz.eqb (propertyKey (ProductRecord.Page_Number p))
                        (propertyKey (ProductRecord.Page_Number q)).

(** The product at position [i] is the only one on its page. *)
Definition aloneOnPage (productData : list ProductRecord.t) (i : nat) : Prop :=
  exists p, nth_error productData i = Some p
            /\ forall j q, nth_error productData j = Some q -> j <> i ->
                           samePage p q = false.

(** The purchases the profiler keeps for a customer: the customer's rows
    whose product is in the catalog, with that product's index. *)
Definition profilePurchases (productMetrics : list EnrichedProduct.t)
  (customerEmail : string) (customerData : list CustomerRecord.t)
  : list EnrichedCustomer.t :=
  filter (fun x => String.eqb customerEmail (EnrichedCustomer.Customer_Email x))
         (mapNonNull (joinProfile productMetrics) customerData).

(** The string contains the character ['+']. *)
Fixpoint hasPlus (s : string) : bool :=
  match s with
  | EmptyString => false
  | String c s' => Ascii.eqb c "+" || hasPlus s'
  end.

(** The customer record names a product of the catalog. *)
Definition matched (productMetrics : list EnrichedProduct.t)
  (r : CustomerRecord.t) : bool :=
  match findProduct productMetrics (CustomerRecord.Product_Name r) with
  | Some _ => true
  | None => false
  end.

(** The string begins with ['+']. *)
Definition startsWithPlus (s : string) : bool :=
  match s with
  | String c _ => Ascii.eqb c "+"
  | EmptyString => false
  end.

(** The number is a zero or NaN. *)
Definition zeroOrNaN (x : number) : bool :=
  match Prim2SF x with
  | S754_zero _ | S754_nan => true
  | _ => false
  end.

(** The joined rows of a segment. *)
Definition segmentRecords (productMetrics : list EnrichedProduct.t)
  (customerData : list CustomerRecord.t) (label : string)
  : list SegmentedRecord.t :=
  filter (fun x => String.eqb label (SegmentedRecord.segment x))
         (mapNonNull (joinSegment productMetrics) customerData).

(** The customer record belongs to the customer and names a catalog
    product. *)
Definition matchedRowOf (productMetrics : list EnrichedProduct.t)
  (customerEmail : string) (r : CustomerRecord.t) : bool :=
  String.eqb customerEmail (CustomerRecord.Customer_Email r)
  && matched productMetrics r.


(** lodash does not rank [b] strictly above [a]. *)
Definition notBelow {A} (key : A -> number) (a b : A) : Prop :=
  compareAscending (key a) (key b) <> Lt.

(** The binomial coefficient C(n, k), by Pascal's rule. *)
Fixpoint binomial (n k : nat) : nat :=
  match n, k with
  | _, O => 1
  | O, S _ => 0
  | S n', S k' => binomial n' k' + binomial n' k
  end.

(* ================================================================== *)
(** * Sample inputs *)

(** A parser that has read the given rows from its file. *)
Definition parsed {A} (rows : list A) : string -> Except (list A) :=
  fun _ => Return rows.

Definition productHeader : string :=
  "Product Name,Product Sales Revenue,Units Sold,Square Inches,Page Number,Catalog Price".

Definition customerHeader : string :=
  "Customer Email,Product Name,Units Purchased,Revenue Generated,Age Range,Income Tier,Location".

Definition lamp : ProductRecord.t :=
  ProductRecord.mk "Lamp" 1000 10 10 1 100.

Definition rug : ProductRecord.t :=
  ProductRecord.mk "Rug" 500 10 10 1 50.

(** A product that sold nothing, alone on page 2. *)
Definition vase : ProductRecord.t :=
  ProductRecord.mk "Vase" 0 0 10 2 20.

(** A product to which no area was allocated. *)
Definition sticker : ProductRecord.t :=
  ProductRecord.mk "Sticker" 1000 10 0 1 1.

Definition purchase (email name : string) (units revenue : number)
  : CustomerRecord.t :=
  CustomerRecord.mk email name units revenue "25-34" "High" "Urban".

(** The enriched product set the pipeline computes from a catalog. *)
Definition enrich (productData : list ProductRecord.t) : list EnrichedProduct.t :=
  let productMetrics := calculateProductMetrics productData in
  map (withPageMetrics productMetrics) productMetrics.



Definition shampoo : ProductRecord.t :=
  ProductRecord.mk "Shampoo" 600 100 10 4 6.

Definition conditioner : ProductRecord.t :=
  ProductRecord.mk "Conditioner" 400 80 10 4 5.

(* ================================================================== *)
(** * The JavaScript model on sample values *)

(** [Math.round] on a few values: ties go up, also below zero; a zero result
    keeps the sign; NaN and the infinities come back unchanged. *)
Example Math_round_values :
  map Math_round [2.5; -2.5; 0.5; -0.5; 62.5; 1333.3333; 4503599627370497;
                  NaN; infinity]
  = [3; -2; 1; -0; 63; 1333; 4503599627370497; NaN; infinity].
Proof. vm_compute. reflexivity. Qed.

(** [split], [join] and [sort] on a pair key. *)
Example pair_key_values :
  join " + " (sort ["Rug"; "Lamp"]%string) = "Lamp + Rug"%string
  /\ split " + " "Lamp + Rug" = ["Lamp"; "Rug"]%string
  /\ split " + " "Rug + Lamp + Vase" = ["Rug"; "Lamp"; "Vase"]%string
  /\ split " + " "Lamp" = ["Lamp"]%string.
Proof. vm_compute. repeat split. Qed.

(** Objects enumerate array-index names first, in numeric order. *)
Example groupBy_order :
  map fst (groupBy (fun s : string => s) ["b"; "10"; "a"; "2"; "b"]%string)
  = ["2"; "10"; "b"; "a"]%string.
Proof. vm_compute. reflexivity. Qed.

(* ================================================================== *)
(** * Facts about binary64 arithmetic

    Derived from the specification of the primitive operations
    ([FloatAxioms]): how the operations treat NaN, the infinities and the
    zeros, and the exact quotient of a number by itself. *)

Module Binary64.

Lemma SFeqb_refl_finite s m e :
  SFeqb (S754_finite s m e) (S754_finite s m e) = true.
Proof.
  unfold SFeqb, SFcompare.
  rewrite Z.compare_refl, Pos.compare_cont_refl.
  destruct s; reflexivity.
Qed.

Lemma is_nan_spec x :
  is_nan x = match Prim2SF x with S754_nan => true | _ => false end.
Proof.
  unfold is_nan. rewrite FloatAxioms.eqb_spec.
  destruct (Prim2SF x) as [s| s| |s m e]; try reflexivity.
  - destruct s; reflexivity.
  - rewrite SFeqb_refl_finite. reflexivity.
Qed.

Lemma is_zero_spec x :
  (x =? 0) = match Prim2SF x with S754_zero _ => true | _ => false end.
Proof.
  rewrite FloatAxioms.eqb_spec.
  change (Prim2SF 0) with (S754_zero false).
  destruct (Prim2SF x) as [s| s| |s m e]; try reflexivity;
    destruct s; reflexivity.
Qed.

Lemma is_infinity_spec x :
  is_infinity x = match Prim2SF x with S754_infinity _ => true | _ => false end.
Proof.
  unfold is_infinity. rewrite FloatAxioms.eqb_spec, FloatAxioms.abs_spec.
  change (Prim2SF infinity) with (S754_infinity false).
  destruct (Prim2SF x) as [s| s| |s m e]; reflexivity.
Qed.

Lemma is_finite_spec x :
  is_finite x =
  match Prim2SF x with S754_zero _ | S754_finite _ _ _ => true | _ => false end.
Proof.
  unfold is_finite. rewrite is_nan_spec, is_infinity_spec.
  destruct (Prim2SF x); reflexivity.
Qed.

(** Dividing by a zero never gives a finite number. *)
Lemma div_zero_not_finite x y :
  (y =? 0) = true -> is_finite (x / y) = false.
Proof.
  rewrite is_zero_spec, is_finite_spec, FloatAxioms.div_spec.
  destruct (Prim2SF y) as [sy| | |]; try discriminate. intros _.
  destruct (Prim2SF x); reflexivity.
Qed.

Lemma div_eucl_shiftl m :
  Z.div_eucl (Z.shiftl (Z.pos m) 53) (Z.pos m) = (9007199254740992%Z, 0%Z).
Proof.
  rewrite Z.shiftl_mul_pow2 by lia.
  change (2 ^ 53)%Z with 9007199254740992%Z.
  assert (E : forall a b, Z.div_eucl a b = (a / b, a mod b)%Z).
  { intros a b. unfold Z.div, Z.modulo. destruct (Z.div_eucl a b); reflexivity. }
  rewrite E, (Z.mul_comm (Z.pos m)), Z.div_mul, Z.mod_mul by lia. reflexivity.
Qed.

(** A finite non-zero number divided by itself is exactly 1. *)
Lemma div_diag x :
  is_finite x = true -> (x =? 0) = false -> x / x = 1.
Proof.
  rewrite is_finite_spec, is_zero_spec. intros Hf Hz.
  apply Prim2SF_inj. rewrite FloatAxioms.div_spec.
  destruct (Prim2SF x) as [s| s| |s m e]; try discriminate.
  unfold SF64div, SFdiv, SFdiv_core_binary.
  replace (Zdigits2 (Z.pos m) + e - (Zdigits2 (Z.pos m) + e))%Z with 0%Z by lia.
  replace (e - e)%Z with 0%Z by lia.
  change (Z.min (fexp prec emax 0) 0) with (-53)%Z.
  change (0 - -53)%Z with 53%Z.
  cbv iota.
  rewrite div_eucl_shiftl.
  replace (xorb s s) with false by (destruct s; reflexivity).
  assert (Hl : new_location (Z.pos m) 0 = loc_Exact).
  { unfold new_location. destruct (Z.even (Z.pos m)); reflexivity. }
  rewrite Hl. vm_compute. reflexivity.
Qed.

(** A NaN or an infinity stays one when multiplied or divided by a finite
    non-zero number. *)
Lemma mul_not_finite x c :
  is_finite x = false -> is_finite c = true -> (c =? 0) = false ->
  is_finite (x * c) = false.
Proof.
  rewrite !is_finite_spec, is_zero_spec, FloatAxioms.mul_spec.
  destruct (Prim2SF x); try discriminate;
    destruct (Prim2SF c); try discriminate; reflexivity.
Qed.

Lemma div_not_finite x c :
  is_finite x = false -> is_finite c = true -> (c =? 0) = false ->
  is_finite (x / c) = false.
Proof.
  rewrite !is_finite_spec, is_zero_spec, FloatAxioms.div_spec.
  destruct (Prim2SF x); try discriminate;
    destruct (Prim2SF c); try discriminate; reflexivity.
Qed.

Lemma Math_round_not_finite x :
  is_finite x = false -> Math_round x = x.
Proof.
  rewrite is_finite_spec. unfold Math_round.
  destruct (Prim2SF x); try discriminate; reflexivity.
Qed.

Lemma round2_not_finite x :
  is_finite x = false -> is_finite (round2 x) = false.
Proof.
  intros Hx. unfold round2.
  assert (H100 : is_finite (x * 100) = false)
    by (apply mul_not_finite; [assumption|reflexivity|reflexivity]).
  rewrite (Math_round_not_finite _ H100).
  apply div_not_finite; [assumption|reflexivity|reflexivity].
Qed.

(** ** Zeros and NaN *)

Lemma is_nan_eq x : is_nan x = true -> x = nan.
Proof.
  rewrite is_nan_spec. intros H. apply Prim2SF_inj.
  destruct (Prim2SF x); try discriminate. reflexivity.
Qed.

Lemma mul_zero_l r s : (r =? 0) = true -> zeroOrNaN (r * s) = true.
Proof.
  rewrite is_zero_spec. unfold zeroOrNaN. rewrite FloatAxioms.mul_spec.
  destruct (Prim2SF r); try discriminate. intros _.
  destruct (Prim2SF s); reflexivity.
Qed.

Lemma add_zeroOrNaN a b :
  zeroOrNaN a = true -> zeroOrNaN b = true -> zeroOrNaN (a + b) = true.
Proof.
  unfold zeroOrNaN. rewrite FloatAxioms.add_spec.
  destruct (Prim2SF a) as [[]| | |]; try discriminate;
    destruct (Prim2SF b) as [[]| | |]; try discriminate; reflexivity.
Qed.

Lemma add_zero a b :
  (a =? 0) = true -> (b =? 0) = true -> (a + b =? 0) = true.
Proof.
  rewrite !is_zero_spec, FloatAxioms.add_spec.
  destruct (Prim2SF a) as [[]| | |]; try discriminate;
    destruct (Prim2SF b) as [[]| | |]; try discriminate; reflexivity.
Qed.

Lemma div_zero_by_zero a b :
  zeroOrNaN a = true -> (b =? 0) = true -> is_nan (a / b) = true.
Proof.
  unfold zeroOrNaN. rewrite is_zero_spec, is_nan_spec, FloatAxioms.div_spec.
  destruct (Prim2SF a); try discriminate;
    destruct (Prim2SF b); try discriminate; reflexivity.
Qed.

Lemma round1_nan x : is_nan x = true -> is_nan (round1 x) = true.
Proof. intros H. rewrite (is_nan_eq x H). reflexivity. Qed.

End Binary64.

(* ================================================================== *)
(** * Facts about grouping *)

Section GroupFacts.

Context {A K : Type} (eqb : K -> K -> bool).
Hypothesis eqb_eq : forall x y, eqb x y = true <-> x = y.
Variable key : A -> K.

Let members (k : K) (l : list A) : list A :=
  filter (fun a => eqb k (key a)) l.

Lemma eqb_same k : eqb k k = true.
Proof. apply eqb_eq. reflexivity. Qed.

Lemma eqb_differ k k' : k <> k' -> eqb k k' = false.
Proof.
  intros Hne. destruct (eqb k k') eqn:E; [|reflexivity].
  apply eqb_eq in E. contradiction.
Qed.

Lemma groupInsertion_snoc l a :
  groupInsertion eqb key (l ++ [a])
  = groupInsert eqb (key a) a (groupInsertion eqb key l).
Proof. unfold groupInsertion. rewrite fold_left_app. reflexivity. Qed.

Lemma groupInsert_keys k a (G : list (K * list A)) :
  forall k', In k' (map fst (groupInsert eqb k a G)) <-> k' = k \/ In k' (map fst G).
Proof.
  induction G as [|[k0 g0] G IH]; intros k'; simpl.
  - intuition congruence.
  - destruct (eqb k0 k) eqn:E; simpl.
    + apply eqb_eq in E. subst. intuition.
    + rewrite IH. intuition.
Qed.

Lemma groupInsert_NoDup k a (G : list (K * list A)) :
  NoDup (map fst G) -> NoDup (map fst (groupInsert eqb k a G)).
Proof.
  induction G as [|[k0 g0] G IH]; simpl; intros Hnd.
  - constructor; [intros []|constructor].
  - inversion Hnd as [|? ? Hnot Hrest]; subst.
    destruct (eqb k0 k) eqn:E; simpl.
    + constructor; assumption.
    + constructor; [|auto].
      rewrite groupInsert_keys. intros [->|Hin]; [|contradiction].
      rewrite eqb_same in E. discriminate.
Qed.

Lemma groupInsert_In k a (G : list (K * list A)) k' g :
  NoDup (map fst G) ->
  In (k', g) (groupInsert eqb k a G) ->
  (k' <> k /\ In (k', g) G)
  \/ (k' = k /\ exists g', g = g' ++ [a]
                           /\ (In (k, g') G \/ (g' = [] /\ ~ In k (map fst G)))).
Proof.
  induction G as [|[k0 g0] G IH]; simpl; intros Hnd Hin.
  - destruct Hin as [Heq|[]]. inversion Heq; subst.
    right. split; [reflexivity|]. exists []. intuition.
  - inversion Hnd as [|? ? Hnot Hrest]; subst.
    destruct (eqb k0 k) eqn:E.
    + apply eqb_eq in E. subst k0.
      destruct Hin as [Heq|Hin].
      * inversion Heq; subst. right. split; [reflexivity|].
        exists g0. intuition.
      * left. split; [|right; assumption].
        intros ->. apply Hnot. change k with (fst (k, g)). apply in_map, Hin.
    + destruct Hin as [Heq|Hin].
      * inversion Heq; subst. left. split; [|left; reflexivity].
        intros ->. rewrite eqb_same in E. discriminate.
      * destruct (IH Hrest Hin) as [[Hne HG]|[-> (g' & -> & Hg')]].
        -- left. intuition.
        -- right. split; [reflexivity|]. exists g'. split; [reflexivity|].
           destruct Hg' as [HG|[-> Hnk]]; [left; right; assumption|].
           right. split; [reflexivity|]. intros [Heq|Hin']; [|contradiction].
           simpl in Heq. subst k0. rewrite eqb_same in E. discriminate.
Qed.

Lemma members_snoc k l a :
  members k (l ++ [a]) = members k l ++ (if eqb k (key a) then [a] else []).
Proof. unfold members. rewrite filter_app. reflexivity. Qed.

(** The groups lodash builds: one entry per key met, in the order in which
    the keys were first met, holding the elements of that key in input
    order. *)
Lemma groupInsertion_spec l :
  let G := groupInsertion eqb key l in
  NoDup (map fst G)
  /\ (forall k g, In (k, g) G -> g = members k l /\ g <> [])
  /\ (forall a, In a l -> In (key a) (map fst G)).
Proof.
  induction l as [|a l IH] using rev_ind; simpl.
  - split; [constructor|]. split; [intros ? ? []|intros ? []].
  - destruct IH as (Hnd & Hmem & Hkeys).
    rewrite groupInsertion_snoc.
    split; [apply groupInsert_NoDup, Hnd|]. split.
    + intros k g Hin. rewrite members_snoc.
      destruct (groupInsert_In _ _ _ _ _ Hnd Hin)
        as [[Hne HG]|[-> (g' & -> & Hg')]].
      * rewrite eqb_differ by assumption. rewrite app_nil_r. auto.
      * rewrite eqb_same. split; [|intros E; destruct g'; discriminate].
        f_equal. destruct Hg' as [HG|[-> Hnk]]; [apply Hmem, HG|].
        symmetry. unfold members.
        destruct (filter (fun a0 => eqb (key a) (key a0)) l) as [|b f] eqn:F;
          [reflexivity|].
        assert (Hb : In b (filter (fun a0 => eqb (key a) (key a0)) l))
          by (rewrite F; left; reflexivity).
        apply filter_In in Hb. destruct Hb as [Hbl Hbk].
        apply eqb_eq in Hbk. exfalso. apply Hnk. rewrite Hbk. auto.
    + intros b Hb. rewrite groupInsert_keys.
      apply in_app_or in Hb. destruct Hb as [Hb|[->|[]]]; auto.
Qed.

Lemma groupInsertion_complete l a :
  In a l -> In (key a, members (key a) l) (groupInsertion eqb key l).
Proof.
  intros Ha. destruct (groupInsertion_spec l) as (_ & Hmem & Hkeys).
  specialize (Hkeys a Ha). apply in_map_iff in Hkeys.
  destruct Hkeys as ([k g] & Hk & Hin). simpl in Hk. subst k.
  destruct (Hmem _ _ Hin) as [-> _]. exact Hin.
Qed.

Lemma lookup_In {V} k (G : list (K * V)) :
  In k (map fst G) -> exists v, lookup eqb k G = Some v /\ In (k, v) G.
Proof.
  induction G as [|[k0 v0] G IH]; simpl; [intros []|].
  intros Hin. destruct (eqb k0 k) eqn:E.
  - apply eqb_eq in E. subst. eauto.
  - destruct Hin as [->|Hin]; [rewrite eqb_same in E; discriminate|].
    destruct (IH Hin) as (v & Hv & HG). eauto.
Qed.

End GroupFacts.

(** Enumerating own properties only reorders the entries. *)
Lemma indexInsert_perm {A} (e : N * (string * A)) l :
  Permutation (indexInsert e l) (e :: l).
Proof.
  induction l as [|e' l IH]; simpl; [reflexivity|].
  destruct (fst e' <? fst e)%N; [|reflexivity].
  rewrite IH. apply perm_swap.
Qed.

Lemma indexSort_perm {A} (l : list (N * (string * A))) :
  Permutation (fold_right indexInsert [] l) l.
Proof.
  induction l as [|e l IH]; simpl; [reflexivity|].
  rewrite indexInsert_perm. constructor. exact IH.
Qed.

Lemma ownEntries_perm {A} (l : list (string * A)) :
  Permutation (ownEntries l) l.
Proof.
  unfold ownEntries. rewrite indexSort_perm.
  induction l as [|e l IH]; simpl; [reflexivity|].
  unfold isName at 1.
  destruct (arrayIndex (fst e)); simpl.
  - constructor. exact IH.
  - rewrite <- Permutation_middle. constructor. exact IH.
Qed.

Section StringGroups.

Context {A : Type} (key : A -> string).

Lemma groupBy_perm l :
  Permutation (groupBy key l) (groupInsertion String.eqb key l).
Proof. apply ownEntries_perm. Qed.

Lemma groupBy_In l k g :
  In (k, g) (groupBy key l) ->
  g = filter (fun a => String.eqb k (key a)) l /\ g <> [].
Proof.
  intros Hin. apply (Permutation_in _ (groupBy_perm l)) in Hin.
  exact (proj1 (proj2 (groupInsertion_spec String.eqb String.eqb_eq key l)) _ _ Hin).
Qed.

Lemma groupBy_NoDup l : NoDup (map fst (groupBy key l)).
Proof.
  apply (Permutation_NoDup (l := map fst (groupInsertion String.eqb key l))).
  - apply Permutation_map. symmetry. apply groupBy_perm.
  - exact (proj1 (groupInsertion_spec String.eqb String.eqb_eq key l)).
Qed.

Lemma groupBy_complete l a :
  In a l ->
  In (key a, filter (fun b => String.eqb (key a) (key b)) l) (groupBy key l).
Proof.
  intros Ha. apply (Permutation_in _ (Permutation_sym (groupBy_perm l))).
  apply (groupInsertion_complete String.eqb String.eqb_eq key l a Ha).
Qed.

Lemma groupBy_member l k g a :
  In (k, g) (groupBy key l) -> In a g -> In a l /\ key a = k.
Proof.
  intros Hin Ha. destruct (groupBy_In _ _ _ Hin) as [-> _].
  apply filter_In in Ha. destruct Ha as [Hl Hk].
  apply String.eqb_eq in Hk. auto.
Qed.

End StringGroups.

(* ================================================================== *)
(** * Insight summaries *)

(** C10.  [generateInsightSummaries] is a total function: it returns a summary
    for every triple of tables.  When the segment table is empty its top,
    bottom and highest-efficiency segments are undefined and the segment
    count is 0; when the affinity table is empty the top pair is undefined
    and both pair counts are 0; when the profile table is empty the top
    customer is undefined, both customer counts are 0 and the mean of
    [avgSEI] is NaN. *)
Theorem generateInsightSummaries_empty :
  forall (segmentAnalysis : list SegmentAnalysis.t)
         (affinityAnalysis : list AffinityAnalysis.t)
         (customerProfiles : list CustomerProfile.t),
    (let s := InsightSummaries.segmentInsights_
                (generateInsightSummaries [] affinityAnalysis customerProfiles) in
     InsightSummaries.topSegment s = None
     /\ InsightSummaries.bottomSegment s = None
     /\ InsightSummaries.highestEfficiencySegment s = None
     /\ InsightSummaries.totalSegments s = 0%nat)
    /\ (let a := InsightSummaries.affinityInsights_
                   (generateInsightSummaries segmentAnalysis [] customerProfiles) in
        InsightSummaries.topAffinity a = None
        /\ InsightSummaries.totalAffinityPairs a = 0%nat
        /\ InsightSummaries.highEfficiencyPairs a = 0%nat)
    /\ (let c := InsightSummaries.customerInsights_
                   (generateInsightSummaries segmentAnalysis affinityAnalysis []) in
        InsightSummaries.topCustomer c = None
        /\ is_nan (InsightSummaries.avgCustomerSEI c) = true
        /\ InsightSummaries.avgCustomerSEI c = NaN
        /\ InsightSummaries.multiProductCustomers c = 0%nat
        /\ InsightSummaries.totalCustomers c = 0%nat).
Proof.
  intros seg aff prof. unfold generateInsightSummaries. cbn [InsightSummaries.segmentInsights_
    InsightSummaries.affinityInsights_ InsightSummaries.customerInsights_
    InsightSummaries.topSegment InsightSummaries.bottomSegment
    InsightSummaries.highestEfficiencySegment InsightSummaries.totalSegments
    InsightSummaries.topAffinity InsightSummaries.totalAffinityPairs
    InsightSummaries.highEfficiencyPairs InsightSummaries.topCustomer
    InsightSummaries.avgCustomerSEI InsightSummaries.multiProductCustomers
    InsightSummaries.totalCustomers].
  repeat split.
Qed.

(* ================================================================== *)
(** * Product metrics *)

Lemma calculateProductMetrics_products productData :
  map EnrichedProduct.product (calculateProductMetrics productData) = productData.
Proof.
  unfold calculateProductMetrics. rewrite map_map. simpl. apply map_id.
Qed.

Lemma calculateProductMetrics_row productData e :
  In e (calculateProductMetrics productData) ->
  EnrichedProduct.catalogAvgRevenuePerSqIn e
  = sumBy ProductRecord.Product_Sales_Revenue productData
    / sumBy ProductRecord.Square_Inches productData
  /\ EnrichedProduct.revenuePerSqIn e
     = EnrichedProduct.Product_Sales_Revenue e / EnrichedProduct.Square_Inches e
  /\ EnrichedProduct.pageAvgRevenuePerSqIn e = 0.
Proof.
  unfold calculateProductMetrics. intros He. apply in_map_iff in He.
  destruct He as (p & <- & _). repeat split.
Qed.

(** C2.  [calculateProductMetrics] returns one row per product, in input
    order.  Every row carries the same catalog average, the sum of all
    revenues divided by the sum of all areas; a row's [revenuePerSqIn] is
    its product's revenue divided by its area, and its
    [spaceEfficiencyIndex] is that ratio divided by the catalog average,
    times 100.  The catalog average weighs products by area, it is not the
    mean of the products' own ratios: for A (1000 on 10 sq in) and B (500
    on 30 sq in) it is 1500 / 40 = 37.5 on both rows, while the mean of
    100 and 16.66... is not. *)
Theorem calculateProductMetrics_rows :
  (forall productData : list ProductRecord.t,
      let catalogAvg :=
        sumBy ProductRecord.Product_Sales_Revenue productData
        / sumBy ProductRecord.Square_Inches productData in
      map EnrichedProduct.product (calculateProductMetrics productData)
      = productData
      /\ forall e, In e (calculateProductMetrics productData) ->
           EnrichedProduct.catalogAvgRevenuePerSqIn e = catalogAvg
           /\ EnrichedProduct.revenuePerSqIn e
              = EnrichedProduct.Product_Sales_Revenue e
                / EnrichedProduct.Square_Inches e
           /\ EnrichedProduct.spaceEfficiencyIndex e
              = EnrichedProduct.revenuePerSqIn e / catalogAvg * 100)
  /\ (let rows :=
        calculateProductMetrics
          [ ProductRecord.mk "A" 1000 10 10 1 5;
            ProductRecord.mk "B" 500 10 30 2 5 ] in
      map EnrichedProduct.catalogAvgRevenuePerSqIn rows = [37.5; 37.5]
      /\ (meanBy EnrichedProduct.revenuePerSqIn rows =? 37.5) = false).
Proof.
  split.
  - intros productData catalogAvg. split.
    + apply calculateProductMetrics_products.
    + intros e He.
      destruct (calculateProductMetrics_row productData e He)
        as (Havg & Hratio & _).
      split; [exact Havg|]. split; [exact Hratio|].
      unfold calculateProductMetrics in He. apply in_map_iff in He.
      destruct He as (p & <- & _). reflexivity.
  - vm_compute. split; reflexivity.
Qed.

(** The scenario of the specification: A (1000 on 10 sq in) and B (500 on
    10 sq in) have a catalog average of 75, and indices 133.3 and 66.7 once
    rounded to one decimal. *)
Example two_product_scenario :
  let rows := calculateProductMetrics
                [ ProductRecord.mk "A" 1000 10 10 1 5;
                  ProductRecord.mk "B" 500 10 10 1 5 ] in
  map EnrichedProduct.catalogAvgRevenuePerSqIn rows = [75; 75]
  /\ map EnrichedProduct.revenuePerSqIn rows = [100; 50]
  /\ map (fun e => round1 (EnrichedProduct.spaceEfficiencyIndex e)) rows
     = [133.3; 66.7].
Proof. vm_compute. repeat split. Qed.

(* ================================================================== *)
(** * Candidate pairs of the affinity analysis *)

Local Close Scope float_scope.

Lemma pairsOf_customer customerEmail purchases cp :
  In cp (pairsOf customerEmail purchases) -> CoPurchase.customer cp = customerEmail.
Proof.
  induction purchases as [|p later IH]; simpl; [intros []|].
  intros Hin. apply in_app_or in Hin. destruct Hin as [Hin|Hin]; [|auto].
  apply in_map_iff in Hin. destruct Hin as (q & <- & _). reflexivity.
Qed.

Lemma binomial_1 n : binomial n 1 = n.
Proof. induction n as [|n IH]; simpl; [reflexivity|]. rewrite IH. destruct n; reflexivity. Qed.

Lemma pairsOf_length customerEmail purchases :
  List.length (pairsOf customerEmail purchases)
  = binomial (List.length purchases) 2.
Proof.
  induction purchases as [|p later IH]; [reflexivity|].
  cbn [pairsOf List.length]. rewrite length_app, length_map, IH.
  cbn [binomial]. rewrite binomial_1. reflexivity.
Qed.

(** C(n,2) is n (n - 1) / 2. *)
Lemma binomial_2_closed n : 2 * binomial n 2 = n * (n - 1).
Proof.
  induction n as [|n IH]; [reflexivity|].
  cbn [binomial]. rewrite binomial_1. destruct n; [reflexivity|]. nia.
Qed.

Lemma filter_none {A} (f : A -> bool) l :
  (forall a, In a l -> f a = false) -> filter f l = [].
Proof.
  induction l as [|a l IH]; intros Hall; [reflexivity|].
  simpl. rewrite (Hall a) by (left; reflexivity).
  apply IH. intros ? ?. apply Hall. right. assumption.
Qed.

Lemma filter_all {A} (f : A -> bool) l :
  (forall a, In a l -> f a = true) -> filter f l = l.
Proof.
  induction l as [|a l IH]; intros Hall; [reflexivity|].
  simpl. rewrite (Hall a) by (left; reflexivity). f_equal.
  apply IH. intros ? ?. apply Hall. right. assumption.
Qed.

Section PairsPerCustomer.

Variable customerEmail : string.

Let mine (cp : CoPurchase.t) : bool :=
  String.eqb (CoPurchase.customer cp) customerEmail.

Let pairsIn (group : string * list CustomerRecord.t) : list CoPurchase.t :=
  let '(email, purchases) := group in
  if (1 <? List.length purchases)%nat then pairsOf email purchases else [].

Lemma pairsIn_other email purchases :
  email <> customerEmail -> filter mine (pairsIn (email, purchases)) = [].
Proof.
  intros Hne. unfold pairsIn.
  destruct (1 <? List.length purchases)%nat; [|reflexivity].
  apply filter_none. intros cp Hcp. unfold mine.
  rewrite (pairsOf_customer _ _ _ Hcp). apply String.eqb_neq. assumption.
Qed.

Lemma pairsIn_mine purchases :
  filter mine (pairsIn (customerEmail, purchases)) = pairsIn (customerEmail, purchases).
Proof.
  unfold pairsIn. destruct (1 <? List.length purchases)%nat; [|reflexivity].
  apply filter_all. intros cp Hcp. unfold mine.
  rewrite (pairsOf_customer _ _ _ Hcp). apply String.eqb_refl.
Qed.

Lemma pairs_of_groups (G : list (string * list CustomerRecord.t)) :
  NoDup (map fst G) ->
  (forall purchases, In (customerEmail, purchases) G ->
     filter mine (flat_map pairsIn G) = pairsIn (customerEmail, purchases))
  /\ (~ In customerEmail (map fst G) -> filter mine (flat_map pairsIn G) = []).
Proof.
  induction G as [|[email ps] G IH]; intros Hnd.
  - split; [intros ? []|reflexivity].
  - inversion Hnd as [|? ? Hnot Hrest]; subst.
    destruct (IH Hrest) as [IHin IHout].
    cbn [flat_map]. rewrite filter_app. split.
    + intros purchases [Heq|Hin].
      * inversion Heq; subst. rewrite pairsIn_mine, IHout, app_nil_r by assumption.
        reflexivity.
      * assert (Hne : email <> customerEmail).
        { intros ->. apply Hnot. change customerEmail with (fst (customerEmail, purchases)).
          apply in_map, Hin. }
        rewrite pairsIn_other by assumption. apply IHin, Hin.
    + intros Hout. simpl in Hout.
      rewrite pairsIn_other, IHout by tauto. reflexivity.
Qed.

End PairsPerCustomer.

(** C7.  A customer with [k] purchase rows contributes exactly C(k,2)
    candidate pairs.  A customer with a single row therefore contributes
    none and occurs in no pair, and every pair comes from a customer with
    at least two rows. *)
Theorem coPurchases_per_customer :
  forall (customerData : list CustomerRecord.t) (customerEmail : string),
    List.length (pairsOfCustomer customerEmail customerData)
    = binomial (List.length (rowsOf customerEmail customerData)) 2
    /\ (List.length (rowsOf customerEmail customerData) = 1 ->
        forall cp, In cp (coPurchasesOf customerData) ->
                   CoPurchase.customer cp <> customerEmail)
    /\ (In customerEmail (map CoPurchase.customer (coPurchasesOf customerData)) ->
        2 <= List.length (rowsOf customerEmail customerData)).
Proof.
  intros customerData customerEmail.
  assert (Hcount : List.length (pairsOfCustomer customerEmail customerData)
                   = binomial (List.length (rowsOf customerEmail customerData)) 2).
  { unfold pairsOfCustomer, coPurchasesOf.
    pose proof (groupBy_NoDup CustomerRecord.Customer_Email customerData) as Hnd.
    destruct (pairs_of_groups customerEmail _ Hnd) as [Hin Hout].
    destruct (rowsOf customerEmail customerData) as [|r rows] eqn:Hrows.
    - rewrite Hout; [reflexivity|].
      intros Hk. apply in_map_iff in Hk. destruct Hk as ([e g] & He & Hg).
      simpl in He. subst e.
      destruct (groupBy_In _ _ _ _ Hg) as [Hfilter Hne].
      apply Hne. rewrite Hfilter. exact Hrows.
    - assert (Hr : In r (rowsOf customerEmail customerData))
        by (rewrite Hrows; left; reflexivity).
      apply filter_In in Hr. destruct Hr as [Hr Hkey].
      apply String.eqb_eq in Hkey.
      pose proof (groupBy_complete CustomerRecord.Customer_Email _ _ Hr) as Hg.
      rewrite <- Hkey in Hg. fold (rowsOf customerEmail customerData) in Hg.
      rewrite (Hin _ Hg), Hrows.
      destruct rows as [|r' rows]; [reflexivity|].
      change (1 <? List.length (r :: r' :: rows))%nat with true. cbv iota.
      apply pairsOf_length. }
  split; [exact Hcount|]. split.
  - intros Hone cp Hcp Hmine. rewrite Hone in Hcount. simpl in Hcount.
    apply length_zero_iff_nil in Hcount.
    assert (Hin : In cp (pairsOfCustomer customerEmail customerData)).
    { apply filter_In. split; [assumption|]. apply String.eqb_eq. assumption. }
    rewrite Hcount in Hin. destruct Hin.
  - intros Hin. apply in_map_iff in Hin. destruct Hin as (cp & Hcust & Hcp).
    assert (Hmem : In cp (pairsOfCustomer customerEmail customerData)).
    { apply filter_In. split; [assumption|]. apply String.eqb_eq. assumption. }
    destruct (List.length (rowsOf customerEmail customerData)) as [|[|k]] eqn:Hk;
      [| |lia];
      simpl in Hcount;
      apply length_zero_iff_nil in Hcount; rewrite Hcount in Hmem; destruct Hmem.
Qed.

(* ================================================================== *)
(** * The pipeline never throws *)

Lemma mapM_pure {A B} (f : A -> Except B) (g : A -> B) l :
  (forall a, In a l -> f a = Return (g a)) -> mapM f l = Return (map g l).
Proof.
  induction l as [|a l IH]; intros Hall; [reflexivity|].
  simpl. rewrite (Hall a) by (left; reflexivity). simpl.
  rewrite IH by (intros ? ?; apply Hall; right; assumption). reflexivity.
Qed.

Lemma mapM_total {A B} (f : A -> Except B) l :
  (forall a, In a l -> exists b, f a = Return b) ->
  exists bs, mapM f l = Return bs /\ Forall2 (fun a b => f a = Return b) l bs.
Proof.
  induction l as [|a l IH]; intros Hall.
  - exists []. split; [reflexivity|constructor].
  - destruct (Hall a (or_introl eq_refl)) as (b & Hb).
    destruct IH as (bs & Hbs & Hall2);
      [intros ? ?; apply Hall; right; assumption|].
    exists (b :: bs). simpl. rewrite Hb. simpl. rewrite Hbs. simpl.
    split; [reflexivity|constructor; assumption].
Qed.

Lemma mapNonNull_none {A B} (f : A -> option B) l :
  (forall a, In a l -> f a = None) -> mapNonNull f l = [].
Proof.
  induction l as [|a l IH]; intros Hall; [reflexivity|].
  simpl. rewrite (Hall a) by (left; reflexivity).
  apply IH. intros ? ?. apply Hall. right. assumption.
Qed.

Lemma mapNonNull_In {A B} (f : A -> option B) l b :
  In b (mapNonNull f l) <-> exists a, In a l /\ f a = Some b.
Proof.
  induction l as [|a l IH]; simpl.
  - split; [intros []|intros (? & [] & _)].
  - destruct (f a) as [b'|] eqn:E; simpl; rewrite IH; split.
    + intros [<-|(a' & Ha' & Hf)]; eauto.
    + intros (a' & [<-|Ha'] & Hf); [left; congruence|eauto].
    + intros (a' & Ha' & Hf). eauto.
    + intros (a' & [<-|Ha'] & Hf); [congruence|eauto].
Qed.

Lemma orderInsert_perm {A} (key : A -> number) a l :
  Permutation (orderInsert key a l) (a :: l).
Proof.
  induction l as [|b l IH]; simpl; [reflexivity|].
  destruct (compareAscending (key a) (key b)); try reflexivity.
  rewrite IH. apply perm_swap.
Qed.

(** [_.orderBy] only reorders the rows. *)
Lemma orderByDesc_perm {A} (key : A -> number) l :
  Permutation (orderByDesc key l) l.
Proof.
  induction l as [|a l IH]; simpl; [reflexivity|].
  rewrite orderInsert_perm. constructor. exact IH.
Qed.

Lemma orderByDesc_In {A} (key : A -> number) l a :
  In a (orderByDesc key l) <-> In a l.
Proof.
  split; apply Permutation_in;
    [apply orderByDesc_perm|symmetry; apply orderByDesc_perm].
Qed.

Lemma mapValues_keys {K A B} (f : A -> B) (o : list (K * A)) :
  map fst (mapValues f o) = map fst o.
Proof. unfold mapValues. rewrite map_map. reflexivity. Qed.

Lemma mapValues_In {K A B} (f : A -> B) (o : list (K * A)) k v :
  In (k, v) (mapValues f o) -> exists a, v = f a /\ In (k, a) o.
Proof.
  unfold mapValues. intros Hin. apply in_map_iff in Hin.
  destruct Hin as ([k' a] & Heq & Hin). inversion Heq; subst. eauto.
Qed.

(** Every product finds the metrics of its page. *)
Lemma pageMetrics_lookup enrichedProducts product :
  In product enrichedProducts ->
  lookupNumber (EnrichedProduct.Page_Number product) (pageMetricsOf enrichedProducts)
  = Some (PageMetric.mk
            (pageAverage enrichedProducts (EnrichedProduct.Page_Number product))
            (List.length
               (productsOnPage enrichedProducts (EnrichedProduct.Page_Number product)))).
Proof.
  intros Hin. unfold lookupNumber, pageMetricsOf, groupByNumber.
  set (key := fun a => propertyKey (EnrichedProduct.Page_Number a)).
  destruct (groupInsertion_spec PrimFloat.Leibniz.eqb FloatAxioms.Leibniz.eqb_spec
              key enrichedProducts) as (_ & Hmem & Hkeys).
  specialize (Hkeys _ Hin).
  rewrite <- (mapValues_keys
                (fun productsOnPage =>
                   PageMetric.mk
                     (sumBy EnrichedProduct.Product_Sales_Revenue productsOnPage
                      / sumBy EnrichedProduct.Square_Inches productsOnPage)%float
                     (List.length productsOnPage))) in Hkeys.
  destruct (lookup_In PrimFloat.Leibniz.eqb FloatAxioms.Leibniz.eqb_spec _ _ Hkeys)
    as (v & Hv & HvIn).
  transitivity (Some v); [exact Hv|]. f_equal.
  apply mapValues_In in HvIn. destruct HvIn as (g & -> & Hg).
  destruct (Hmem _ _ Hg) as [-> _]. reflexivity.
Qed.

Theorem calculatePageMetrics_returns enrichedProducts :
  calculatePageMetrics enrichedProducts
  = Return (map (withPageMetrics enrichedProducts) enrichedProducts).
Proof.
  unfold calculatePageMetrics. apply mapM_pure.
  intros product Hin. rewrite (pageMetrics_lookup _ _ Hin). reflexivity.
Qed.

(** [enrich] is what the first two stages of the pipeline return. *)
Lemma enrich_returns productData :
  calculatePageMetrics (calculateProductMetrics productData)
  = Return (enrich productData).
Proof. apply calculatePageMetrics_returns. Qed.

Lemma profileRow_returns email purchases :
  purchases <> [] -> exists row, profileRow (email, purchases) = Return row.
Proof.
  destruct purchases as [|first rest]; [congruence|]. intros _.
  unfold profileRow. simpl. eauto.
Qed.

Theorem generateCustomerProfiles_returns customerData productMetrics :
  exists rows,
    generateCustomerProfiles customerData productMetrics
    = Return (orderByDesc CustomerProfile.revenueWeightedSEI rows)
    /\ Forall2 (fun group row => profileRow group = Return row)
         (groupBy EnrichedCustomer.Customer_Email
            (mapNonNull (joinProfile productMetrics) customerData))
         rows.
Proof.
  unfold generateCustomerProfiles.
  destruct (mapM_total profileRow
              (groupBy EnrichedCustomer.Customer_Email
                 (mapNonNull (joinProfile productMetrics) customerData)))
    as (rows & Hrows & Hall).
  - intros [email purchases] Hin. apply profileRow_returns.
    exact (proj2 (groupBy_In _ _ _ _ Hin)).
  - exists rows. rewrite Hrows. simpl. auto.
Qed.

Local Open Scope float_scope.

Lemma affinityRow_nil group : affinityRow [] group = None.
Proof.
  destruct group as [productPair records]. unfold affinityRow.
  destruct (at_ (split " + " productPair) 0); [|reflexivity].
  destruct (at_ (split " + " productPair) 1); reflexivity.
Qed.

(** C1 (as the code has it).  The pipeline validates nothing: whenever both
    files parse, [processFullAnalysis] returns a success result with one
    metrics row per product, so a failure result can only come from the
    parser.  With an empty product set the four tables are empty and the
    summary's mean customer index is NaN; with a total area of zero every
    product row carries a catalog average that is not a finite number. *)
Theorem processFullAnalysis_succeeds :
  forall (parseProducts : string -> Except (list ProductRecord.t))
         (parseCustomers : string -> Except (list CustomerRecord.t))
         (productFile customerFile : string)
         (productData : list ProductRecord.t)
         (customerData : list CustomerRecord.t),
    parseProducts productFile = Return productData ->
    parseCustomers customerFile = Return customerData ->
    exists data,
      processFullAnalysis parseProducts parseCustomers productFile customerFile
      = ProcessingResults.mk true (Some data) None
      /\ map EnrichedProduct.product (ProcessingResults.productMetrics data)
         = productData
      /\ (productData = [] ->
          ProcessingResults.productMetrics data = []
          /\ ProcessingResults.segmentAnalysis data = []
          /\ ProcessingResults.affinityAnalysis data = []
          /\ ProcessingResults.customerProfiles data = []
          /\ is_nan (InsightSummaries.avgCustomerSEI
                       (InsightSummaries.customerInsights_
                          (ProcessingResults.insightSummaries data))) = true)
      /\ ((sumBy ProductRecord.Square_Inches productData =? 0) = true ->
          forall e, In e (ProcessingResults.productMetrics data) ->
                    is_finite (EnrichedProduct.catalogAvgRevenuePerSqIn e) = false).
Proof.
  intros parseProducts parseCustomers productFile customerFile
         productData customerData HP HC.
  unfold processFullAnalysis, analyse, loadDatasets.
  rewrite HP, HC. cbn [bind]. rewrite calculatePageMetrics_returns. cbn [bind].
  set (metrics := calculateProductMetrics productData).
  set (enriched := map (withPageMetrics metrics) metrics).
  destruct (generateCustomerProfiles_returns customerData enriched)
    as (rows & Hprofiles & Hrows).
  rewrite Hprofiles. cbn [bind].
  eexists. split; [reflexivity|].
  cbn [ProcessingResults.productMetrics ProcessingResults.segmentAnalysis
       ProcessingResults.affinityAnalysis ProcessingResults.customerProfiles
       ProcessingResults.insightSummaries].
  split; [|split].
  - unfold enriched. rewrite map_map.
    rewrite (map_ext _ EnrichedProduct.product) by reflexivity.
    apply calculateProductMetrics_products.
  - intros ->. subst enriched metrics. simpl in *.
    assert (Hnone : rows = []).
    { rewrite mapNonNull_none in Hrows by reflexivity.
      inversion Hrows. reflexivity. }
    subst rows. repeat split.
    + unfold generateSegmentAnalysis.
      rewrite mapNonNull_none by reflexivity. reflexivity.
    + unfold generateAffinityAnalysis.
      rewrite mapNonNull_none by (intros; apply affinityRow_nil). reflexivity.
  - intros Hzero e He. unfold enriched in He. apply in_map_iff in He.
    destruct He as (e0 & <- & He0). cbn [withPageMetrics EnrichedProduct.catalogAvgRevenuePerSqIn].
    destruct (calculateProductMetrics_row productData _ He0) as (-> & _).
    apply Binary64.div_zero_not_finite. exact Hzero.
Qed.

(** The theorem at an empty catalog and one purchase row. *)
Lemma processFullAnalysis_succeeds_on_empty_catalog :
  (parsed (@nil ProductRecord.t) productHeader = Return []
   /\ parsed [purchase "ann@example.com" "Lamp" 1 100] customerHeader
      = Return [purchase "ann@example.com" "Lamp" 1 100])
  /\ exists data,
       processFullAnalysis (parsed []) (parsed [purchase "ann@example.com" "Lamp" 1 100])
         productHeader customerHeader
       = ProcessingResults.mk true (Some data) None
       /\ map EnrichedProduct.product (ProcessingResults.productMetrics data) = []
       /\ (@nil ProductRecord.t = [] ->
           ProcessingResults.productMetrics data = []
           /\ ProcessingResults.segmentAnalysis data = []
           /\ ProcessingResults.affinityAnalysis data = []
           /\ ProcessingResults.customerProfiles data = []
           /\ is_nan (InsightSummaries.avgCustomerSEI
                        (InsightSummaries.customerInsights_
                           (ProcessingResults.insightSummaries data))) = true)
       /\ ((sumBy ProductRecord.Square_Inches [] =? 0) = true ->
           forall e, In e (ProcessingResults.productMetrics data) ->
                     is_finite (EnrichedProduct.catalogAvgRevenuePerSqIn e) = false).
Proof.
  split; [split; reflexivity|].
  apply (processFullAnalysis_succeeds
           (parsed []) (parsed [purchase "ann@example.com" "Lamp" 1 100])
           productHeader customerHeader
           [] [purchase "ann@example.com" "Lamp" 1 100]); reflexivity.
Defined.

(** C1 fails on the code.  An empty product set gives a success result with
    empty tables and a NaN mean, not a failure result; a catalog whose only
    product has area 0 gives a success result whose product row holds
    [Infinity] and NaN. *)
Lemma empty_or_zero_area_catalog_is_not_rejected :
  processFullAnalysis (parsed []) (parsed [purchase "ann@example.com" "Lamp" 1 100])
    productHeader customerHeader
  = ProcessingResults.mk true
      (Some (ProcessingResults.mkData [] [] [] []
               (InsightSummaries.mk
                  (InsightSummaries.mkSegment None None None 0)
                  (InsightSummaries.mkAffinity None 0 0)
                  (InsightSummaries.mkCustomer None NaN 0 0))))
      None
  /\ (let result :=
        processFullAnalysis (parsed [sticker])
          (parsed [purchase "ann@example.com" "Sticker" 1 100])
          productHeader customerHeader in
      ProcessingResults.success result = true
      /\ ProcessingResults.error result = None
      /\ option_map ProcessingResults.productMetrics (ProcessingResults.data result)
         = Some [EnrichedProduct.mk sticker infinity NaN infinity infinity NaN]).
Proof. vm_compute. repeat split. Qed.

(* ================================================================== *)
(** * Segments *)

Lemma generateSegmentAnalysis_In customerData productMetrics row :
  In row (generateSegmentAnalysis customerData productMetrics) <->
  exists group,
    In group (groupBy SegmentedRecord.segment
                (mapNonNull (joinSegment productMetrics) customerData))
    /\ row = segmentRow group.
Proof.
  unfold generateSegmentAnalysis. rewrite orderByDesc_In, in_map_iff.
  split; intros (group & H1 & H2); exists group; auto.
Qed.

(** C4 (as the code has it).  The segment aggregator signals nothing: every
    segment that has a matched purchase row gets an output row, and a row
    whose total area consumed is zero reports a revenue per area that is
    not a finite number (an infinity or NaN). *)
Theorem generateSegmentAnalysis_zero_area :
  forall (customerData : list CustomerRecord.t)
         (productMetrics : list EnrichedProduct.t),
    (forall r, In r customerData ->
               findProduct productMetrics (CustomerRecord.Product_Name r) <> None ->
               exists row, In row (generateSegmentAnalysis customerData productMetrics)
                           /\ SegmentAnalysis.segment row = segmentLabel r)
    /\ (forall row, In row (generateSegmentAnalysis customerData productMetrics) ->
                    (SegmentAnalysis.spaceConsumed row =? 0) = true ->
                    is_finite (SegmentAnalysis.revenuePerSqIn row) = false).
Proof.
  intros customerData productMetrics. split.
  - intros r Hr Hfound.
    destruct (findProduct productMetrics (CustomerRecord.Product_Name r))
      as [productMatch|] eqn:Hfind; [clear Hfound|congruence].
    set (joined := SegmentedRecord.mk r
                     (EnrichedProduct.spaceEfficiencyIndex productMatch)
                     (EnrichedProduct.Square_Inches productMatch)
                     (segmentLabel r)).
    assert (Hjoined : In joined (mapNonNull (joinSegment productMetrics) customerData)).
    { apply mapNonNull_In. exists r. split; [assumption|].
      unfold joinSegment. rewrite Hfind. reflexivity. }
    pose proof (groupBy_complete SegmentedRecord.segment _ _ Hjoined) as Hgroup.
    eexists. split.
    + apply generateSegmentAnalysis_In. eexists. split; [exact Hgroup|reflexivity].
    + reflexivity.
  - intros row Hrow Hzero.
    apply generateSegmentAnalysis_In in Hrow.
    destruct Hrow as ([segment records] & _ & ->).
    cbn [segmentRow SegmentAnalysis.revenuePerSqIn SegmentAnalysis.spaceConsumed] in *.
    apply Binary64.round2_not_finite, Binary64.div_zero_not_finite. exact Hzero.
Qed.

(** C4 fails on the code.  The catalog has a positive total area, but the one
    purchase of the segment is of a product without area: the run succeeds
    and the segment's row reports [Infinity]. *)
Lemma zero_area_segment_reports_infinity :
  let result :=
    processFullAnalysis (parsed [lamp; sticker])
      (parsed [purchase "ann@example.com" "Sticker" 2 100])
      productHeader customerHeader in
  ProcessingResults.success result = true
  /\ ProcessingResults.error result = None
  /\ option_map ProcessingResults.segmentAnalysis (ProcessingResults.data result)
     = Some [SegmentAnalysis.mk "High Income Urban" 1 100 infinity 0 infinity].
Proof. vm_compute. repeat split. Qed.

(* ================================================================== *)
(** * Page metrics *)

Lemma filter_singleton {A} (f : A -> bool) (l : list A) i x :
  nth_error l i = Some x -> f x = true ->
  (forall j y, nth_error l j = Some y -> j <> i -> f y = false) ->
  filter f l = [x].
Proof.
  revert i. induction l as [|a l IH]; intros i Hi Hx Hothers.
  - destruct i; discriminate.
  - destruct i as [|i]; simpl in Hi.
    + inversion Hi; subst a. simpl. rewrite Hx. f_equal.
      apply filter_none. intros y Hy. apply In_nth_error in Hy.
      destruct Hy as (j & Hj). apply (Hothers (S j) y Hj). discriminate.
    + simpl. rewrite (Hothers 0%nat a eq_refl) by discriminate.
      apply (IH i Hi Hx). intros j y Hj Hne.
      apply (Hothers (S j) y Hj). congruence.
Qed.

Lemma sumBy_singleton {A} (f : A -> number) a : sumBy f [a] = f a.
Proof. reflexivity. Qed.

(** C8 (as the code has it).  For a product that is the only one on its
    page, the page average is the product's own revenue per area and the
    page position ratio is that value divided by itself: exactly 1 when it
    is a finite non-zero number. *)
Theorem alone_on_page_ratio :
  forall (productData : list ProductRecord.t) (i : nat),
    aloneOnPage productData i ->
    exists out e,
      calculatePageMetrics (calculateProductMetrics productData) = Return out
      /\ nth_error out i = Some e
      /\ nth_error productData i = Some (EnrichedProduct.product e)
      /\ EnrichedProduct.revenuePerSqIn e
         = EnrichedProduct.Product_Sales_Revenue e / EnrichedProduct.Square_Inches e
      /\ EnrichedProduct.pageAvgRevenuePerSqIn e = EnrichedProduct.revenuePerSqIn e
      /\ EnrichedProduct.pagePositionRatio e
         = EnrichedProduct.revenuePerSqIn e / EnrichedProduct.revenuePerSqIn e
      /\ (is_finite (EnrichedProduct.revenuePerSqIn e) = true ->
          (EnrichedProduct.revenuePerSqIn e =? 0) = false ->
          EnrichedProduct.pagePositionRatio e = 1).
Proof.
  intros productData i (p & Hp & Halone).
  rewrite calculatePageMetrics_returns.
  set (enrich := fun product : ProductRecord.t =>
         EnrichedProduct.mk product
           (ProductRecord.Product_Sales_Revenue product
            / ProductRecord.Square_Inches product)
           (ProductRecord.Product_Sales_Revenue product
            / ProductRecord.Square_Inches product
            / (sumBy ProductRecord.Product_Sales_Revenue productData
               / sumBy ProductRecord.Square_Inches productData) * 100)
           (sumBy ProductRecord.Product_Sales_Revenue productData
            / sumBy ProductRecord.Square_Inches productData) 0 0).
  assert (Hmetrics : calculateProductMetrics productData = map enrich productData)
    by reflexivity.
  rewrite Hmetrics.
  set (metrics := map enrich productData).
  assert (Hpage : productsOnPage metrics (ProductRecord.Page_Number p) = [enrich p]).
  { unfold productsOnPage. apply (filter_singleton _ metrics i).
    - unfold metrics. rewrite nth_error_map, Hp. reflexivity.
    - apply FloatAxioms.Leibniz.eqb_spec. reflexivity.
    - intros j y Hj Hne. unfold metrics in Hj. rewrite nth_error_map in Hj.
      destruct (nth_error productData j) as [q|] eqn:Hq; [|discriminate].
      inversion Hj; subst y. exact (Halone j q Hq Hne). }
  assert (Havg : pageAverage metrics (ProductRecord.Page_Number p)
                 = ProductRecord.Product_Sales_Revenue p
                   / ProductRecord.Square_Inches p).
  { unfold pageAverage. rewrite Hpage, !sumBy_singleton. reflexivity. }
  exists (map (withPageMetrics metrics) metrics), (withPageMetrics metrics (enrich p)).
  split; [reflexivity|]. split.
  { unfold metrics. rewrite !nth_error_map, Hp. reflexivity. }
  split; [exact Hp|]. split; [reflexivity|].
  unfold withPageMetrics.
  cbn [EnrichedProduct.pageAvgRevenuePerSqIn EnrichedProduct.pagePositionRatio
       EnrichedProduct.revenuePerSqIn EnrichedProduct.Page_Number
       EnrichedProduct.product enrich ProductRecord.Page_Number].
  change (EnrichedProduct.Page_Number (enrich p)) with (ProductRecord.Page_Number p).
  rewrite Havg. split; [reflexivity|]. split; [reflexivity|].
  apply Binary64.div_diag.
Qed.

(** The theorem at the lamp, alone on page 1 of a two-product catalog. *)
Lemma alone_on_page_ratio_for_vase_and_lamp :
  aloneOnPage [lamp; vase] 0
  /\ exists out e,
       calculatePageMetrics (calculateProductMetrics [lamp; vase]) = Return out
       /\ nth_error out 0 = Some e
       /\ nth_error [lamp; vase] 0 = Some (EnrichedProduct.product e)
       /\ EnrichedProduct.revenuePerSqIn e
          = EnrichedProduct.Product_Sales_Revenue e / EnrichedProduct.Square_Inches e
       /\ EnrichedProduct.pageAvgRevenuePerSqIn e = EnrichedProduct.revenuePerSqIn e
       /\ EnrichedProduct.pagePositionRatio e
          = EnrichedProduct.revenuePerSqIn e / EnrichedProduct.revenuePerSqIn e
       /\ (is_finite (EnrichedProduct.revenuePerSqIn e) = true ->
           (EnrichedProduct.revenuePerSqIn e =? 0) = false ->
           EnrichedProduct.pagePositionRatio e = 1).
Proof.
  assert (Halone : aloneOnPage [lamp; vase] 0).
  { exists lamp. split; [reflexivity|].
    intros j q Hj Hne. destruct j as [|[|j]]; [congruence| |].
    - inversion Hj; subst q. vm_compute. reflexivity.
    - destruct j; discriminate. }
  split; [exact Halone|].
  exact (alone_on_page_ratio [lamp; vase] 0 Halone).
Defined.

(** C8 fails on the code.  The vase is alone on page 2 and sold nothing: its
    revenue per area and its page average are both 0, and its page position
    ratio is 0 / 0, which is NaN and not 1. *)
Lemma unsold_product_alone_on_page_has_no_ratio :
  aloneOnPage [lamp; rug; vase] 2
  /\ calculatePageMetrics (calculateProductMetrics [lamp; rug; vase])
     = Return
         [ EnrichedProduct.mk lamp 100 200 50 75 (100 / 75);
           EnrichedProduct.mk rug 50 100 50 75 (50 / 75);
           EnrichedProduct.mk vase 0 0 50 0 NaN ]
  /\ (NaN =? 1) = false.
Proof.
  split; [|vm_compute; split; reflexivity].
  exists vase. split; [reflexivity|].
  intros j q Hj Hne. destruct j as [|[|[|j]]].
  - inversion Hj; subst q. vm_compute. reflexivity.
  - inversion Hj; subst q. vm_compute. reflexivity.
  - congruence.
  - destruct j; discriminate.
Qed.

(* ================================================================== *)
(** * Customer profiles *)

Lemma Forall2_In_l {A B} (R : A -> B -> Prop) l l' a :
  Forall2 R l l' -> In a l -> exists b, In b l' /\ R a b.
Proof.
  induction 1 as [|x y l l' Hxy _ IH]; intros Hin; [destruct Hin|].
  destruct Hin as [->|Hin]; [exists y; simpl; auto|].
  destruct (IH Hin) as (b & Hb & HR). exists b. simpl. auto.
Qed.



Lemma sumBy_zeroOrNaN {A} (f : A -> number) l :
  (forall a, In a l -> zeroOrNaN (f a) = true) ->
  zeroOrNaN (sumBy f l) = true.
Proof.
  destruct l as [|x l]; [reflexivity|]. intros Hall. simpl.
  assert (Hx : zeroOrNaN (f x) = true) by (apply Hall; left; reflexivity).
  assert (Hl : forall a, In a l -> zeroOrNaN (f a) = true)
    by (intros ? ?; apply Hall; right; assumption).
  clear Hall. revert Hx. generalize (f x) as acc.
  induction l as [|y l IH]; intros acc Hacc; [exact Hacc|].
  simpl. apply IH.
  - intros ? ?. apply Hl. right. assumption.
  - apply Binary64.add_zeroOrNaN; [assumption|]. apply Hl. left. reflexivity.
Qed.

Lemma sumBy_zero {A} (f : A -> number) l :
  (forall a, In a l -> (f a =? 0)%float = true) -> (sumBy f l =? 0)%float = true.
Proof.
  destruct l as [|x l]; [reflexivity|]. intros Hall. simpl.
  assert (Hx : (f x =? 0)%float = true) by (apply Hall; left; reflexivity).
  assert (Hl : forall a, In a l -> (f a =? 0)%float = true)
    by (intros ? ?; apply Hall; right; assumption).
  clear Hall. revert Hx. generalize (f x) as acc.
  induction l as [|y l IH]; intros acc Hacc; [exact Hacc|].
  simpl. apply IH.
  - intros ? ?. apply Hl. right. assumption.
  - apply Binary64.add_zero; [assumption|]. apply Hl. left. reflexivity.
Qed.

Lemma profileRow_fields email first rest :
  profileRow (email, first :: rest)
  = Return
      (CustomerProfile.mk email
         (CustomerRecord.Age_Range (EnrichedCustomer.record first))
         (CustomerRecord.Income_Tier (EnrichedCustomer.record first))
         (List.length (first :: rest))
         (sumBy EnrichedCustomer.Revenue_Generated (first :: rest))
         (round1 (meanBy EnrichedCustomer.spaceEfficiencyIndex (first :: rest)))
         (round1
            (sumBy (fun purchase =>
                      EnrichedCustomer.Revenue_Generated purchase
                      * EnrichedCustomer.spaceEfficiencyIndex purchase)
                   (first :: rest)
             / sumBy EnrichedCustomer.Revenue_Generated (first :: rest)))).
Proof. reflexivity. Qed.


Lemma profileRow_email group row :
  profileRow group = Return row -> CustomerProfile.customerEmail row = fst group.
Proof.
  destruct group as [email [|first rest]]; [discriminate|].
  rewrite profileRow_fields. intros H. inversion H. reflexivity.
Qed.

Lemma profile_emails groups rows :
  Forall2 (fun group row => profileRow group = Return row) groups rows ->
  map CustomerProfile.customerEmail rows = map fst groups.
Proof.
  induction 1 as [|g r groups rows Hgr _ IH]; [reflexivity|].
  simpl. rewrite IH, (profileRow_email _ _ Hgr). reflexivity.
Qed.


(* ------------------------------------------------------------------ *)
(** ** Exact binary64 operations: multiplying by 1 and counting

    A weight of exactly 1 leaves every index as it is, and adding 1 to an
    integer below 2^53 gives the next integer without rounding. *)

Local Close Scope float_scope.
Local Open Scope Z_scope.

















Local Close Scope Z_scope.
Local Open Scope float_scope.




(* ================================================================== *)
(** * Pair keys *)

Local Close Scope float_scope.

Lemma sort_pair a b :
  sort [a; b] = if String.ltb b a then [b; a] else [a; b].
Proof. reflexivity. Qed.

Lemma ltb_irrefl a : String.ltb a a = false.
Proof.
  unfold String.ltb. pose proof (String.compare_antisym a a) as H.
  destruct (String.compare a a); simpl in H; try discriminate; reflexivity.
Qed.

Lemma ltb_asym a b : String.ltb a b = true -> String.ltb b a = false.
Proof.
  unfold String.ltb. rewrite (String.compare_antisym a b).
  destruct (String.compare b a); simpl; congruence.
Qed.

Lemma ltb_total a b :
  String.ltb a b = false -> String.ltb b a = false -> a = b.
Proof.
  unfold String.ltb. rewrite (String.compare_antisym a b).
  destruct (String.compare b a) eqn:E; simpl; try congruence.
  intros _ _. symmetry. apply String.compare_eq_iff. exact E.
Qed.

(** The key of a pair does not depend on the order of its two names. *)
Lemma sort_pair_comm a b : sort [a; b] = sort [b; a].
Proof.
  rewrite !sort_pair.
  destruct (String.ltb b a) eqn:Hba, (String.ltb a b) eqn:Hab; try reflexivity.
  - apply ltb_asym in Hba. congruence.
  - rewrite (ltb_total a b Hab Hba). reflexivity.
Qed.

(** A customer who bought B then A lands in the bucket of A then B. *)
Lemma pairKey_comm customer1 customer2 a b :
  pairKey (CoPurchase.mk customer1 a b) = pairKey (CoPurchase.mk customer2 b a).
Proof.
  unfold pairKey. cbn [CoPurchase.product1 CoPurchase.product2].
  rewrite (sort_pair_comm a b). reflexivity.
Qed.

Lemma append_nil_r (s : string) : (s ++ "")%string = s.
Proof. induction s as [|c s IH]; simpl; congruence. Qed.

Lemma append_assoc (a b c : string) : ((a ++ b) ++ c)%string = (a ++ (b ++ c))%string.
Proof. induction a as [|x a IH]; simpl; congruence. Qed.

Lemma prefix_separator c s :
  startsWithPlus s = false -> String.prefix " + " (String c s) = false.
Proof.
  intros Hs. cbn [String.prefix].
  destruct (ascii_dec " " c); [|reflexivity].
  destruct s as [|d s]; [reflexivity|]. cbn [String.prefix].
  destruct (ascii_dec "+" d) as [<-|]; [discriminate Hs|reflexivity].
Qed.

Lemma startsWithPlus_append a rest :
  hasPlus a = false -> startsWithPlus rest = false ->
  startsWithPlus (a ++ rest) = false.
Proof.
  destruct a as [|c a]; simpl; [auto|].
  intros H _. apply orb_false_iff in H. tauto.
Qed.

(** Reading a piece without ['+'] never meets the separator. *)
Lemma splitFrom_piece a cur rest :
  hasPlus a = false -> startsWithPlus rest = false ->
  splitFrom " + " 0 cur (a ++ rest) = splitFrom " + " 0 (cur ++ a) rest.
Proof.
  revert cur. induction a as [|c a IH]; intros cur Ha Hrest.
  - rewrite append_nil_r. reflexivity.
  - simpl in Ha. apply orb_false_iff in Ha. destruct Ha as [Hc Ha].
    change (String c a ++ rest)%string with (String c (a ++ rest)%string).
    cbn [splitFrom].
    rewrite prefix_separator by (apply startsWithPlus_append; assumption).
    rewrite IH by assumption.
    rewrite append_assoc. reflexivity.
Qed.

Lemma prefix_nil s : String.prefix "" s = true.
Proof. destruct s; reflexivity. Qed.

Lemma splitFrom_separator cur rest :
  splitFrom " + " 0 cur (" + " ++ rest) = cur :: splitFrom " + " 0 "" rest.
Proof.
  change (" + " ++ rest)%string with (String " " (String "+" (String " " rest))).
  assert (Hprefix : String.prefix " + " (String " " (String "+" (String " " rest)))
                    = true).
  { cbn [String.prefix].
    destruct (ascii_dec " " " ") as [_|Hn]; [|congruence].
    destruct (ascii_dec "+" "+") as [_|Hn]; [|congruence].
    apply prefix_nil. }
  change (splitFrom " + " 0 cur (String " " (String "+" (String " " rest))))
    with (if String.prefix " + " (String " " (String "+" (String " " rest)))
          then cur :: splitFrom " + " 0 "" rest
          else splitFrom " + " 0 (cur ++ " ") (String "+" (String " " rest))).
  rewrite Hprefix. reflexivity.
Qed.

(** Splitting the key of two names without ['+'] gives the two names back. *)
Lemma split_join a b :
  hasPlus a = false -> hasPlus b = false ->
  split " + " (join " + " [a; b]) = [a; b].
Proof.
  intros Ha Hb. unfold split, join. cbn [String.concat].
  rewrite (splitFrom_piece a "" (" + " ++ b)) by (assumption || reflexivity).
  change ("" ++ a)%string with a.
  rewrite splitFrom_separator. f_equal.
  rewrite <- (append_nil_r b) at 1.
  rewrite (splitFrom_piece b "" "") by (assumption || reflexivity).
  reflexivity.
Qed.

(* ================================================================== *)
(** * Affinity rows *)

Lemma pairsOf_In customerEmail purchases cp :
  In cp (pairsOf customerEmail purchases) ->
  exists before p q after,
    purchases = before ++ p :: after
    /\ In q after
    /\ CoPurchase.product1 cp = CustomerRecord.Product_Name p
    /\ CoPurchase.product2 cp = CustomerRecord.Product_Name q.
Proof.
  induction purchases as [|p later IH]; simpl; [intros []|].
  intros Hin. apply in_app_or in Hin. destruct Hin as [Hin|Hin].
  - apply in_map_iff in Hin. destruct Hin as (q & <- & Hq).
    exists [], p, q, later. auto.
  - destruct (IH Hin) as (before & p' & q & after & -> & Hq & H1 & H2).
    exists (p :: before), p', q, after. auto.
Qed.

Lemma pairsOf_distinct customerEmail purchases cp :
  NoDup (map CustomerRecord.Product_Name purchases) ->
  In cp (pairsOf customerEmail purchases) ->
  CoPurchase.product1 cp <> CoPurchase.product2 cp
  /\ In (CoPurchase.product1 cp) (map CustomerRecord.Product_Name purchases)
  /\ In (CoPurchase.product2 cp) (map CustomerRecord.Product_Name purchases).
Proof.
  intros Hnd Hin.
  destruct (pairsOf_In _ _ _ Hin) as (before & p & q & after & -> & Hq & -> & ->).
  rewrite map_app in *. simpl in *.
  apply NoDup_remove_2 in Hnd. split; [|split].
  - intros Heq. apply Hnd. apply in_or_app. right.
    rewrite Heq. apply in_map, Hq.
  - apply in_or_app. right. left. reflexivity.
  - apply in_or_app. right. right. apply in_map, Hq.
Qed.

Lemma coPurchasesOf_In customerData cp :
  In cp (coPurchasesOf customerData) ->
  In cp (pairsOf (CoPurchase.customer cp)
                 (rowsOf (CoPurchase.customer cp) customerData)).
Proof.
  unfold coPurchasesOf. intros Hin. apply in_flat_map in Hin.
  destruct Hin as ([email purchases] & Hgroup & Hcp).
  destruct (1 <? List.length purchases)%nat; [|destruct Hcp].
  rewrite (pairsOf_customer _ _ _ Hcp).
  destruct (groupBy_In _ _ _ _ Hgroup) as [Hrows _].
  unfold rowsOf. rewrite <- Hrows. exact Hcp.
Qed.

Lemma generateAffinityAnalysis_In customerData productMetrics row :
  In row (generateAffinityAnalysis customerData productMetrics) <->
  exists group,
    In group (groupBy pairKey (coPurchasesOf customerData))
    /\ affinityRow productMetrics group = Some row.
Proof.
  unfold generateAffinityAnalysis. rewrite orderByDesc_In. apply mapNonNull_In.
Qed.

Lemma at_first {A} (a : A) l : at_ (a :: l) 0 = Some a.
Proof. reflexivity. Qed.

Lemma at_second {A} (a b : A) l : at_ (a :: b :: l) 1 = Some b.
Proof. reflexivity. Qed.

(** The names a row reports are the first two pieces of its group's key. *)
Lemma affinityRow_Some productMetrics productPair records row :
  affinityRow productMetrics (productPair, records) = Some row ->
  at_ (split " + " productPair) 0 = Some (AffinityAnalysis.anchorProduct row)
  /\ at_ (split " + " productPair) 1 = Some (AffinityAnalysis.boughtWithProduct row)
  /\ findProduct productMetrics (AffinityAnalysis.anchorProduct row) <> None
  /\ findProduct productMetrics (AffinityAnalysis.boughtWithProduct row) <> None
  /\ AffinityAnalysis.coPurchases row = List.length records.
Proof.
  unfold affinityRow.
  destruct (at_ (split " + " productPair) 0) as [product1|]; [|discriminate].
  destruct (at_ (split " + " productPair) 1) as [product2|]; [|discriminate].
  destruct (findProduct productMetrics product1) eqn:H1; [|discriminate].
  destruct (findProduct productMetrics product2) eqn:H2; [|discriminate].
  intros H. injection H as <-.
  cbn [AffinityAnalysis.anchorProduct AffinityAnalysis.boughtWithProduct
       AffinityAnalysis.coPurchases].
  rewrite H1, H2. repeat split; discriminate.
Qed.

(** C3 (as the code has it).  Pairs are taken between distinct rows of a
    customer and the names are not compared.  When no customer has two rows
    with the same product name, and no product name contains ['+'], no row
    of the affinity analysis pairs a product with itself. *)
Theorem no_self_pair_without_repeated_products :
  forall (customerData : list CustomerRecord.t)
         (productMetrics : list EnrichedProduct.t),
    (forall r, In r customerData ->
               hasPlus (CustomerRecord.Product_Name r) = false) ->
    (forall customerEmail,
        NoDup (map CustomerRecord.Product_Name (rowsOf customerEmail customerData))) ->
    forall row, In row (generateAffinityAnalysis customerData productMetrics) ->
                AffinityAnalysis.anchorProduct row
                <> AffinityAnalysis.boughtWithProduct row.
Proof.
  intros customerData productMetrics Hplus Hdistinct row Hrow.
  apply generateAffinityAnalysis_In in Hrow.
  destruct Hrow as ([productPair records] & Hgroup & Hmake).
  destruct (groupBy_In _ _ _ _ Hgroup) as [Hrecords Hnonempty].
  destruct records as [|cp records']; [congruence|].
  assert (Hcp : In cp (coPurchasesOf customerData) /\ pairKey cp = productPair).
  { apply (groupBy_member pairKey _ _ _ _ Hgroup). left. reflexivity. }
  destruct Hcp as [Hcp Hkey].
  apply coPurchasesOf_In in Hcp.
  destruct (pairsOf_distinct _ _ _ (Hdistinct _) Hcp) as (Hne & Hin1 & Hin2).
  assert (Hfree : forall name,
             In name (map CustomerRecord.Product_Name
                        (rowsOf (CoPurchase.customer cp) customerData)) ->
             hasPlus name = false).
  { intros name Hname. apply in_map_iff in Hname.
    destruct Hname as (r & <- & Hr). apply filter_In in Hr. apply Hplus, Hr. }
  destruct (affinityRow_Some _ _ _ _ Hmake) as (Hanchor & Hbought & _).
  rewrite <- Hkey in Hanchor, Hbought. unfold pairKey in Hanchor, Hbought.
  rewrite sort_pair in Hanchor, Hbought.
  destruct (String.ltb (CoPurchase.product2 cp) (CoPurchase.product1 cp));
    rewrite split_join in Hanchor, Hbought by auto;
    rewrite at_first in Hanchor; rewrite at_second in Hbought; congruence.
Qed.

Local Open Scope float_scope.

(** The theorem at three purchases of two customers. *)
Lemma no_self_pair_for_ann_and_bob :
  let customerData :=
    [ purchase "ann@example.com" "Lamp" 1 50;
      purchase "bob@example.com" "Rug" 3 70;
      purchase "ann@example.com" "Rug" 2 50 ] in
  ((forall r, In r customerData ->
              hasPlus (CustomerRecord.Product_Name r) = false)
   /\ (forall customerEmail,
         NoDup (map CustomerRecord.Product_Name (rowsOf customerEmail customerData))))
  /\ generateAffinityAnalysis customerData (enrich [lamp; rug]) <> []
  /\ forall row, In row (generateAffinityAnalysis customerData (enrich [lamp; rug])) ->
                 AffinityAnalysis.anchorProduct row
                 <> AffinityAnalysis.boughtWithProduct row.
Proof.
  intros customerData.
  assert (Hplus : forall r, In r customerData ->
                            hasPlus (CustomerRecord.Product_Name r) = false).
  { intros r [<-|[<-|[<-|[]]]]; reflexivity. }
  assert (Hdistinct : forall customerEmail,
             NoDup (map CustomerRecord.Product_Name
                      (rowsOf customerEmail customerData))).
  { intros customerEmail. unfold rowsOf, customerData.
    cbn [filter purchase CustomerRecord.Customer_Email].
    destruct (String.eqb customerEmail "ann@example.com") eqn:Hann;
      destruct (String.eqb customerEmail "bob@example.com") eqn:Hbob;
      cbn [map purchase CustomerRecord.Product_Name];
      try (apply String.eqb_eq in Hann; apply String.eqb_eq in Hbob; congruence);
      repeat constructor; simpl; intuition discriminate. }
  split; [split; assumption|]. split; [vm_compute; discriminate|].
  exact (no_self_pair_without_repeated_products
           customerData (enrich [lamp; rug]) Hplus Hdistinct).
Defined.

(** C3 fails on the code.  Ann bought lamps on two occasions: her two rows
    are paired and the analysis reports the lamp bought with the lamp. *)
Lemma repeated_product_pairs_with_itself :
  option_map ProcessingResults.affinityAnalysis
    (ProcessingResults.data
       (processFullAnalysis (parsed [lamp])
          (parsed [ purchase "ann@example.com" "Lamp" 1 100;
                    purchase "ann@example.com" "Lamp" 2 200 ])
          productHeader customerHeader))
  = Some [AffinityAnalysis.mk "Lamp" 100 "Lamp" 100 1%nat 100].
Proof. vm_compute. reflexivity. Qed.

(** C5 at its failing input.  Cara bought a bundle and a towel; neither name
    is in the catalog, and the segment and profile tables are empty, as
    they are without her rows.  The affinity analysis nevertheless reports
    a pair: the key of her two rows, "Conditioner + Shampoo + Towel", is
    cut again at every " + " and its first two pieces are catalog names.
    Without her rows the affinity analysis is empty. *)
Lemma unmatched_rows_reach_the_affinity_analysis :
  let customerData :=
    [ purchase "cara@example.com" "Conditioner + Shampoo" 1 9;
      purchase "cara@example.com" "Towel" 1 12 ] in
  let result :=
    processFullAnalysis (parsed [shampoo; conditioner]) (parsed customerData)
      productHeader customerHeader in
  let resultWithout :=
    processFullAnalysis (parsed [shampoo; conditioner]) (parsed [])
      productHeader customerHeader in
  map (matched (enrich [shampoo; conditioner])) customerData = [false; false]
  /\ ProcessingResults.success result = true
  /\ option_map ProcessingResults.segmentAnalysis (ProcessingResults.data result)
     = Some []
  /\ option_map ProcessingResults.customerProfiles (ProcessingResults.data result)
     = Some []
  /\ option_map ProcessingResults.affinityAnalysis (ProcessingResults.data result)
     = Some [AffinityAnalysis.mk "Conditioner" 80 "Shampoo" 120 1%nat 100]
  /\ option_map ProcessingResults.affinityAnalysis
       (ProcessingResults.data resultWithout)
     = Some [].
Proof. vm_compute. repeat split. Qed.

(** C6 at its failing input.  Ann bought a lamp and a rug; Bob bought the
    bundle "Rug + Lamp", which is not in the catalog, and a vase.  The
    key of Bob's pair, "Rug + Lamp + Vase", is cut into "Rug" and "Lamp":
    the analysis reports both (Lamp, Rug) and (Rug, Lamp) as rows. *)
Lemma both_orders_of_a_pair_are_reported :
  option_map
    (fun data =>
       map (fun row => (AffinityAnalysis.anchorProduct row,
                        AffinityAnalysis.boughtWithProduct row,
                        AffinityAnalysis.coPurchases row))
           (ProcessingResults.affinityAnalysis data))
    (ProcessingResults.data
       (processFullAnalysis (parsed [lamp; rug])
          (parsed [ purchase "ann@example.com" "Lamp" 1 100;
                    purchase "ann@example.com" "Rug" 1 50;
                    purchase "bob@example.com" "Rug + Lamp" 1 140;
                    purchase "bob@example.com" "Vase" 1 20 ])
          productHeader customerHeader))
  = Some [("Lamp", "Rug", 1%nat); ("Rug", "Lamp", 1%nat)]%string.
Proof. vm_compute. reflexivity. Qed.

(* ================================================================== *)
(** * What the join drops, and what the pair key loses

    The three lemmas below delimit the defect shown by the two failing
    inputs above: the segment and profile joins drop unmatched rows on
    every input, and the affinity analysis treats names correctly as long
    as no product name contains ['+']. *)

Lemma mapNonNull_filter {A B} (f : A -> option B) (keep : A -> bool) l :
  (forall a, keep a = false -> f a = None) ->
  mapNonNull f (filter keep l) = mapNonNull f l.
Proof.
  intros Hdrop. induction l as [|a l IH]; [reflexivity|].
  simpl. destruct (keep a) eqn:Hk; simpl; rewrite IH; [reflexivity|].
  rewrite (Hdrop a Hk). reflexivity.
Qed.

(** Rows naming no catalog product do not influence the segment table nor
    the customer profiles. *)
Lemma unmatched_rows_are_dropped_by_the_joins customerData productMetrics :
  generateSegmentAnalysis (filter (matched productMetrics) customerData) productMetrics
  = generateSegmentAnalysis customerData productMetrics
  /\ generateCustomerProfiles (filter (matched productMetrics) customerData)
       productMetrics
     = generateCustomerProfiles customerData productMetrics.
Proof.
  unfold generateSegmentAnalysis, generateCustomerProfiles.
  rewrite !mapNonNull_filter; [split; reflexivity| |];
    intros r Hr; unfold matched in Hr.
  - unfold joinProfile.
    destruct (findProduct productMetrics (CustomerRecord.Product_Name r));
      [discriminate|reflexivity].
  - unfold joinSegment.
    destruct (findProduct productMetrics (CustomerRecord.Product_Name r));
      [discriminate|reflexivity].
Qed.

Section PlusFreeNames.

Variable customerData : list CustomerRecord.t.
Variable productMetrics : list EnrichedProduct.t.
Hypothesis plusFree :
  forall r, In r customerData -> hasPlus (CustomerRecord.Product_Name r) = false.

Lemma coPurchase_names cp :
  In cp (coPurchasesOf customerData) ->
  exists p q, In p customerData /\ In q customerData
              /\ CoPurchase.product1 cp = CustomerRecord.Product_Name p
              /\ CoPurchase.product2 cp = CustomerRecord.Product_Name q.
Proof.
  intros Hcp. apply coPurchasesOf_In in Hcp.
  destruct (pairsOf_In _ _ _ Hcp) as (before & p & q & after & Hrows & Hq & H1 & H2).
  assert (Hsub : forall x, In x (before ++ p :: after) -> In x customerData).
  { intros x Hx. rewrite <- Hrows in Hx. apply filter_In in Hx. tauto. }
  exists p, q. repeat split; try assumption; apply Hsub, in_or_app; right;
    [left; reflexivity|right; assumption].
Qed.

(** A row reports the two names of a candidate pair, in sorted order, and
    both are catalog products; its group's key is built from these two
    names. *)
Lemma affinity_row_names productPair records row :
  In (productPair, records) (groupBy pairKey (coPurchasesOf customerData)) ->
  affinityRow productMetrics (productPair, records) = Some row ->
  productPair = join " + " [AffinityAnalysis.anchorProduct row;
                            AffinityAnalysis.boughtWithProduct row]
  /\ String.ltb (AffinityAnalysis.boughtWithProduct row)
                (AffinityAnalysis.anchorProduct row) = false
  /\ exists p q, In p customerData /\ In q customerData
                 /\ matched productMetrics p = true
                 /\ matched productMetrics q = true
                 /\ sort [CustomerRecord.Product_Name p; CustomerRecord.Product_Name q]
                    = [AffinityAnalysis.anchorProduct row;
                       AffinityAnalysis.boughtWithProduct row].
Proof.
  intros Hgroup Hmake.
  destruct (groupBy_In _ _ _ _ Hgroup) as [_ Hnonempty].
  destruct records as [|cp records']; [congruence|].
  destruct (groupBy_member pairKey _ _ _ cp Hgroup (or_introl eq_refl))
    as [Hcp Hkey].
  destruct (coPurchase_names cp Hcp) as (p & q & Hp & Hq & H1 & H2).
  destruct (affinityRow_Some _ _ _ _ Hmake) as (Hanchor & Hbought & Hf1 & Hf2 & _).
  rewrite <- Hkey in Hanchor, Hbought |- *. unfold pairKey in *.
  rewrite H1, H2 in *.
  assert (Hsorted :
            sort [CustomerRecord.Product_Name p; CustomerRecord.Product_Name q]
            = [AffinityAnalysis.anchorProduct row;
               AffinityAnalysis.boughtWithProduct row]).
  { rewrite sort_pair in Hanchor, Hbought |- *.
    destruct (String.ltb (CustomerRecord.Product_Name q)
                         (CustomerRecord.Product_Name p));
      rewrite split_join in Hanchor, Hbought by auto;
      rewrite at_first in Hanchor; rewrite at_second in Hbought; congruence. }
  rewrite Hsorted. split; [reflexivity|]. split.
  - rewrite sort_pair in Hsorted.
    destruct (String.ltb (CustomerRecord.Product_Name q)
                         (CustomerRecord.Product_Name p)) eqn:Hlt;
      injection Hsorted as <- <-; [apply ltb_asym|]; assumption.
  - exists p, q. repeat split; try assumption; unfold matched.
    + rewrite sort_pair in Hsorted.
      destruct (String.ltb (CustomerRecord.Product_Name q)
                           (CustomerRecord.Product_Name p));
        injection Hsorted as E1 E2; rewrite <- ?E1, <- ?E2 in *;
        destruct (findProduct productMetrics (CustomerRecord.Product_Name p));
        congruence.
    + rewrite sort_pair in Hsorted.
      destruct (String.ltb (CustomerRecord.Product_Name q)
                           (CustomerRecord.Product_Name p));
        injection Hsorted as E1 E2; rewrite <- ?E1, <- ?E2 in *;
        destruct (findProduct productMetrics (CustomerRecord.Product_Name q));
        congruence.
Qed.

(** With such names, the two orders of a pair are never both reported. *)
Lemma one_row_per_unordered_pair row1 row2 :
  In row1 (generateAffinityAnalysis customerData productMetrics) ->
  In row2 (generateAffinityAnalysis customerData productMetrics) ->
  AffinityAnalysis.anchorProduct row1 = AffinityAnalysis.boughtWithProduct row2 ->
  AffinityAnalysis.boughtWithProduct row1 = AffinityAnalysis.anchorProduct row2 ->
  row1 = row2.
Proof.
  intros Hrow1 Hrow2 Hab Hba.
  apply generateAffinityAnalysis_In in Hrow1, Hrow2.
  destruct Hrow1 as ([key1 records1] & Hgroup1 & Hmake1).
  destruct Hrow2 as ([key2 records2] & Hgroup2 & Hmake2).
  destruct (affinity_row_names _ _ _ Hgroup1 Hmake1) as (Hkey1 & Hlt1 & _).
  destruct (affinity_row_names _ _ _ Hgroup2 Hmake2) as (Hkey2 & Hlt2 & _).
  rewrite <- Hab, <- Hba in Hlt2.
  pose proof (ltb_total _ _ Hlt2 Hlt1) as Hsame.
  assert (Hkey : key1 = key2).
  { rewrite Hkey1, Hkey2, <- Hab, <- Hba, Hsame. reflexivity. }
  rewrite <- Hkey in Hgroup2, Hmake2.
  destruct (groupBy_In _ _ _ _ Hgroup1) as [Hrecords1 _].
  destruct (groupBy_In _ _ _ _ Hgroup2) as [Hrecords2 _].
  rewrite <- Hrecords1 in Hrecords2. rewrite Hrecords2 in Hmake2.
  congruence.
Qed.

End PlusFreeNames.

(* ================================================================== *)
(** * Further properties: product and page metrics *)

Local Open Scope float_scope.

Lemma productsOnPage_key enrichedProducts pageNumber pageNumber' :
  propertyKey pageNumber = propertyKey pageNumber' ->
  productsOnPage enrichedProducts pageNumber
  = productsOnPage enrichedProducts pageNumber'.
Proof. unfold productsOnPage. intros ->. reflexivity. Qed.

(** X1.  [calculatePageMetrics] never throws.  It returns one row per input
    row, in input order, with the product and the three catalog-level fields
    unchanged.  The row's page average is the summed revenue of the rows
    that share its page number divided by their summed area, its page
    position ratio is its revenue per area divided by that average, and
    rows of the same page carry the same page average. *)
Theorem calculatePageMetrics_fills_page_fields :
  forall enrichedProducts : list EnrichedProduct.t,
  exists out,
    calculatePageMetrics enrichedProducts = Return out
    /\ List.length out = List.length enrichedProducts
    /\ forall i e, nth_error enrichedProducts i = Some e ->
       exists e',
         nth_error out i = Some e'
         /\ EnrichedProduct.product e' = EnrichedProduct.product e
         /\ EnrichedProduct.revenuePerSqIn e' = EnrichedProduct.revenuePerSqIn e
         /\ EnrichedProduct.spaceEfficiencyIndex e'
            = EnrichedProduct.spaceEfficiencyIndex e
         /\ EnrichedProduct.catalogAvgRevenuePerSqIn e'
            = EnrichedProduct.catalogAvgRevenuePerSqIn e
         /\ EnrichedProduct.pageAvgRevenuePerSqIn e'
            = sumBy EnrichedProduct.Product_Sales_Revenue
                (productsOnPage enrichedProducts (EnrichedProduct.Page_Number e))
              / sumBy EnrichedProduct.Square_Inches
                  (productsOnPage enrichedProducts (EnrichedProduct.Page_Number e))
         /\ EnrichedProduct.pagePositionRatio e'
            = EnrichedProduct.revenuePerSqIn e
              / EnrichedProduct.pageAvgRevenuePerSqIn e'
         /\ forall j f' , nth_error out j = Some f' ->
              propertyKey (EnrichedProduct.Page_Number f')
              = propertyKey (EnrichedProduct.Page_Number e) ->
              EnrichedProduct.pageAvgRevenuePerSqIn f'
              = EnrichedProduct.pageAvgRevenuePerSqIn e'.
Proof.
  intros l. exists (map (withPageMetrics l) l).
  split; [apply calculatePageMetrics_returns|].
  split; [apply length_map|].
  intros i e Hi. exists (withPageMetrics l e).
  split; [rewrite nth_error_map, Hi; reflexivity|].
  repeat (split; [reflexivity|]).
  intros j f' Hj Hkey. rewrite nth_error_map in Hj.
  destruct (nth_error l j) as [f|]; [|discriminate].
  injection Hj as <-.
  cbn [withPageMetrics EnrichedProduct.pageAvgRevenuePerSqIn].
  unfold pageAverage.
  change (EnrichedProduct.Page_Number (withPageMetrics l f))
    with (EnrichedProduct.Page_Number f) in Hkey.
  rewrite (productsOnPage_key l _ _ Hkey). reflexivity.
Qed.

(** X2.  In a catalog of a single product whose revenue per area is a finite
    non-zero number, the product's space efficiency index is exactly 100,
    the catalog and page averages are its own revenue per area, and its page
    position ratio is exactly 1. *)
Theorem single_product_catalog :
  forall p : ProductRecord.t,
    let r := ProductRecord.Product_Sales_Revenue p / ProductRecord.Square_Inches p in
    is_finite r = true ->
    (r =? 0) = false ->
    calculatePageMetrics (calculateProductMetrics [p])
    = Return [EnrichedProduct.mk p r 100 r r 1].
Proof.
  intros p r Hfinite Hnonzero.
  rewrite calculatePageMetrics_returns.
  unfold calculateProductMetrics. cbn [map sumBy fold_left].
  fold r.
  assert (Hone : r / r = 1) by (apply Binary64.div_diag; assumption).
  rewrite Hone. change (1 * 100) with 100.
  cbn [map]. f_equal. f_equal.
  unfold withPageMetrics, pageAverage, productsOnPage.
  cbn [filter EnrichedProduct.Page_Number EnrichedProduct.product
       EnrichedProduct.revenuePerSqIn EnrichedProduct.spaceEfficiencyIndex
       EnrichedProduct.catalogAvgRevenuePerSqIn].
  rewrite (proj2 (FloatAxioms.Leibniz.eqb_spec _ _) eq_refl).
  cbn [sumBy fold_left].
  unfold EnrichedProduct.Product_Sales_Revenue, EnrichedProduct.Square_Inches.
  cbn [EnrichedProduct.product].
  fold r. rewrite Hone. reflexivity.
Qed.

(** The theorem at the lamp: 1000 on 10 square inches. *)
Lemma single_product_catalog_for_lamp :
  (is_finite (ProductRecord.Product_Sales_Revenue lamp
              / ProductRecord.Square_Inches lamp) = true
   /\ (ProductRecord.Product_Sales_Revenue lamp
       / ProductRecord.Square_Inches lamp =? 0) = false)
  /\ calculatePageMetrics (calculateProductMetrics [lamp])
     = Return [EnrichedProduct.mk lamp
                 (ProductRecord.Product_Sales_Revenue lamp
                  / ProductRecord.Square_Inches lamp)
                 100
                 (ProductRecord.Product_Sales_Revenue lamp
                  / ProductRecord.Square_Inches lamp)
                 (ProductRecord.Product_Sales_Revenue lamp
                  / ProductRecord.Square_Inches lamp)
                 1].
Proof.
  split; [split; reflexivity|].
  apply (single_product_catalog lamp); reflexivity.
Defined.

(* ================================================================== *)
(** * Further properties: the entry point and its caller *)

Lemma analyse_returns parseProducts parseCustomers productFile customerFile
      productData customerData :
  parseProducts productFile = Return productData ->
  parseCustomers customerFile = Return customerData ->
  exists data,
    analyse parseProducts parseCustomers productFile customerFile = Return data
    /\ ProcessingResults.productMetrics data = enrich productData
    /\ ProcessingResults.segmentAnalysis data
       = generateSegmentAnalysis customerData (enrich productData)
    /\ ProcessingResults.affinityAnalysis data
       = generateAffinityAnalysis customerData (enrich productData)
    /\ generateCustomerProfiles customerData (enrich productData)
       = Return (ProcessingResults.customerProfiles data)
    /\ ProcessingResults.insightSummaries data
       = generateInsightSummaries
           (ProcessingResults.segmentAnalysis data)
           (ProcessingResults.affinityAnalysis data)
           (ProcessingResults.customerProfiles data).
Proof.
  intros HP HC. unfold analyse, loadDatasets.
  rewrite HP, HC. cbn [bind]. rewrite enrich_returns. cbn [bind].
  destruct (generateCustomerProfiles_returns customerData (enrich productData))
    as (rows & Hprofiles & _).
  rewrite Hprofiles. cbn [bind].
  eexists. split; [reflexivity|]. repeat split.
Qed.

(** X3.  [processFullAnalysis] returns a failure result exactly when the
    parser throws, the product file being parsed first: the result then has
    no data and carries the message of the thrown [Error], or "Unknown error
    occurred" when the thrown value is not an [Error].  When both files
    parse the result is a success with data and without error message. *)
Theorem processFullAnalysis_outcomes :
  forall (parseProducts : string -> Except (list ProductRecord.t))
         (parseCustomers : string -> Except (list CustomerRecord.t))
         (productFile customerFile : string),
    let result :=
      processFullAnalysis parseProducts parseCustomers productFile customerFile in
    let failure e :=
      ProcessingResults.mk false None
        (Some match e with
              | Error message => message
              | NotAnError => "Unknown error occurred"%string
              end) in
    match parseProducts productFile with
    | Throw e => result = failure e
    | Return productData =>
        match parseCustomers customerFile with
        | Throw e => result = failure e
        | Return customerData =>
            exists data,
              result = ProcessingResults.mk true (Some data) None
              /\ ProcessingResults.productMetrics data = enrich productData
        end
    end.
Proof.
  intros parseProducts parseCustomers productFile customerFile result failure.
  destruct (parseProducts productFile) as [productData|e] eqn:HP.
  - destruct (parseCustomers customerFile) as [customerData|e] eqn:HC.
    + destruct (analyse_returns _ _ _ _ _ _ HP HC) as (data & Hrun & Hmetrics & _).
      exists data. split; [|exact Hmetrics].
      unfold result, processFullAnalysis. rewrite Hrun. reflexivity.
    + unfold result, processFullAnalysis, analyse, loadDatasets.
      rewrite HP, HC. reflexivity.
  - unfold result, processFullAnalysis, analyse, loadDatasets.
    rewrite HP. reflexivity.
Qed.

Lemma processFullAnalysis_result_cases parseProducts parseCustomers
      productFile customerFile :
  match loadDatasets parseProducts parseCustomers productFile customerFile with
  | Return _ =>
      exists data,
        processFullAnalysis parseProducts parseCustomers productFile customerFile
        = ProcessingResults.mk true (Some data) None
  | Throw e =>
      processFullAnalysis parseProducts parseCustomers productFile customerFile
      = ProcessingResults.mk false None
          (Some match e with
                | Error message => message
                | NotAnError => "Unknown error occurred"%string
                end)
  end.
Proof.
  unfold loadDatasets.
  destruct (parseProducts productFile) as [productData|e] eqn:HP; cbn [bind].
  - destruct (parseCustomers customerFile) as [customerData|e] eqn:HC; cbn [bind].
    + destruct (analyse_returns _ _ _ _ _ _ HP HC) as (data & Hrun & _).
      exists data. unfold processFullAnalysis. rewrite Hrun. reflexivity.
    + unfold processFullAnalysis, analyse, loadDatasets. rewrite HP, HC.
      reflexivity.
  - unfold processFullAnalysis, analyse, loadDatasets. rewrite HP. reflexivity.
Qed.

Lemma errorOr_not_empty error :
  Home.errorOr error "Analysis failed" <> ""%string.
Proof.
  unfold Home.errorOr. destruct error as [message|]; [|discriminate].
  destruct (String.eqb_spec message ""); [discriminate|assumption].
Qed.

(** X4.  The setter calls [handleAnalysis] makes, in order.  With a file
    missing it only sets the error to "Please select both CSV files".  With
    both files it makes exactly five calls: loading on, error cleared, tab
    insights cleared, one outcome, loading off, the last also when reading a
    file fails.  The outcome is [setResults] with the data of the run
    exactly when both files are read and parsed; a file that cannot be read
    gives [setError] with the thrown message as it is (the product file
    being read first), and a file that cannot be parsed gives [setError]
    with a message that is never empty. *)
Theorem handleAnalysis_updates :
  forall (parseProducts : string -> Except (list ProductRecord.t))
         (parseCustomers : string -> Except (list CustomerRecord.t))
         (productFile customerFile : option Home.file),
    let updates :=
      Home.handleAnalysis parseProducts parseCustomers productFile customerFile in
    let rejected e :=
      Home.SetError match e with
                    | Error message => message
                    | NotAnError => "An error occurred"%string
                    end in
    (productFile = None \/ customerFile = None ->
     updates = [Home.SetError "Please select both CSV files"])
    /\ forall product customer,
         productFile = Some product -> customerFile = Some customer ->
         exists outcome,
           updates = [ Home.SetLoading true; Home.SetError "";
                       Home.SetTabInsights []; outcome; Home.SetLoading false ]
           /\ match Home.text product with
              | Throw e => outcome = rejected e
              | Return productText =>
                  match Home.text customer with
                  | Throw e => outcome = rejected e
                  | Return customerText =>
                      match loadDatasets parseProducts parseCustomers
                              productText customerText with
                      | Return _ =>
                          exists data,
                            processFullAnalysis parseProducts parseCustomers
                              productText customerText
                            = ProcessingResults.mk true (Some data) None
                            /\ outcome = Home.SetResults data
                      | Throw _ =>
                          exists message,
                            outcome = Home.SetError message
                            /\ message <> ""%string
                      end
                  end
              end.
Proof.
  intros parseProducts parseCustomers productFile customerFile updates rejected.
  split.
  - intros [-> | ->]; [reflexivity|]. unfold updates.
    destruct productFile; reflexivity.
  - intros product customer -> ->. unfold updates, Home.handleAnalysis.
    unfold Home.tryAnalysis.
    destruct (Home.text product) as [productText|e]; cbn [bind];
      [|eexists; split; reflexivity].
    destruct (Home.text customer) as [customerText|e]; cbn [bind];
      [|eexists; split; reflexivity].
    pose proof (processFullAnalysis_result_cases parseProducts parseCustomers
                  productText customerText) as Hcases.
    destruct (loadDatasets parseProducts parseCustomers productText customerText)
      as [[productData customerData]|e].
    + destruct Hcases as (data & Hrun). rewrite Hrun.
      cbn [ProcessingResults.success ProcessingResults.data app].
      eexists. split; [reflexivity|]. exists data. split; reflexivity.
    + rewrite Hcases.
      cbn [ProcessingResults.success ProcessingResults.data
           ProcessingResults.error app].
      eexists. split; [reflexivity|]. eexists. split; [reflexivity|].
      apply errorOr_not_empty.
Qed.

(* ================================================================== *)
(** * Further properties: segments *)

Local Close Scope float_scope.

Lemma existsb_eqb_In (k : string) seen :
  existsb (String.eqb k) seen = true <-> In k seen.
Proof.
  rewrite existsb_exists. split.
  - intros (x & Hx & Heq). apply String.eqb_eq in Heq. subst. exact Hx.
  - intros H. exists k. split; [exact H|apply String.eqb_refl].
Qed.

(** [_.uniqBy] keeps exactly one element per key not seen before. *)
Lemma uniqFrom_keys {A} (key : A -> string) (l : list A) seen :
  NoDup (map key (uniqFrom key seen l))
  /\ forall k, In k (map key (uniqFrom key seen l))
               <-> In k (map key l) /\ ~ In k seen.
Proof.
  revert seen. induction l as [|x l IH]; intros seen; simpl.
  - split; [constructor|]. intros k. tauto.
  - destruct (existsb (String.eqb (key x)) seen) eqn:E.
    + apply existsb_eqb_In in E. destruct (IH seen) as [Hnd Hin].
      split; [exact Hnd|]. intros k. rewrite Hin. split.
      * tauto.
      * intros [[<-|Hk] Hns]; [contradiction|tauto].
    + assert (Hx : ~ In (key x) seen).
      { intros H. apply existsb_eqb_In in H. congruence. }
      destruct (IH (key x :: seen)) as [Hnd Hin]. simpl. split.
      * constructor; [|exact Hnd]. rewrite Hin. simpl. tauto.
      * intros k. rewrite Hin. simpl.
        destruct (String.eqb_spec (key x) k) as [Heq|Hne]; [|tauto].
        split; [intros _; split; [left; exact Heq|rewrite <- Heq; exact Hx]|].
        intros _. left. exact Heq.
Qed.

Lemma uniqFrom_length {A} (key : A -> string) (l : list A) seen :
  List.length (uniqFrom key seen l) <= List.length l.
Proof.
  revert seen. induction l as [|x l IH]; intros seen; simpl; [lia|].
  destruct (existsb (String.eqb (key x)) seen); simpl.
  - specialize (IH seen). lia.
  - specialize (IH (key x :: seen)). lia.
Qed.

Lemma uniqBy_length_bounds {A} (key : A -> string) (l : list A) :
  List.length (uniqBy key l) <= List.length l
  /\ (l <> [] -> 1 <= List.length (uniqBy key l)).
Proof.
  unfold uniqBy. split; [apply uniqFrom_length|].
  destruct l as [|x l]; [congruence|]. intros _. simpl. lia.
Qed.

Lemma joinSegment_Some productMetrics r x :
  joinSegment productMetrics r = Some x ->
  matched productMetrics r = true
  /\ SegmentedRecord.record x = r
  /\ SegmentedRecord.segment x = segmentLabel r.
Proof.
  unfold joinSegment, matched.
  destruct (findProduct productMetrics (CustomerRecord.Product_Name r));
    [|discriminate].
  intros H. injection H as <-. repeat split.
Qed.

Lemma joinSegment_matched productMetrics r :
  matched productMetrics r = true ->
  exists x, joinSegment productMetrics r = Some x.
Proof.
  unfold joinSegment, matched.
  destruct (findProduct productMetrics (CustomerRecord.Product_Name r));
    [eauto|discriminate].
Qed.

Lemma segmentRow_segment group :
  SegmentAnalysis.segment (segmentRow group) = fst group.
Proof. destruct group. reflexivity. Qed.

(** X5.  The segment table has exactly one row per segment label that occurs
    among the purchase rows naming a catalog product.  A row's customer
    count is the number of distinct customer emails among the segment's
    rows, so a customer with several purchases is counted once: it is at
    least 1 and at most the number of rows.  Its total revenue and its space
    consumed are summed over the segment's rows in input order. *)
Theorem segment_table_rows :
  forall (customerData : list CustomerRecord.t)
         (productMetrics : list EnrichedProduct.t),
    let table := generateSegmentAnalysis customerData productMetrics in
    NoDup (map SegmentAnalysis.segment table)
    /\ (forall label,
          In label (map SegmentAnalysis.segment table)
          <-> exists r, In r customerData
                        /\ matched productMetrics r = true
                        /\ segmentLabel r = label)
    /\ forall row, In row table ->
         let records :=
           segmentRecords productMetrics customerData (SegmentAnalysis.segment row) in
         records <> []
         /\ SegmentAnalysis.totalRevenue row
            = sumBy SegmentedRecord.Revenue_Generated records
         /\ SegmentAnalysis.spaceConsumed row
            = sumBy (fun x => (SegmentedRecord.Units_Purchased x
                               * SegmentedRecord.Square_Inches x)%float) records
         /\ (exists emails,
               NoDup emails
               /\ (forall e, In e emails
                             <-> In e (map SegmentedRecord.Customer_Email records))
               /\ SegmentAnalysis.customers row = List.length emails)
         /\ 1 <= SegmentAnalysis.customers row <= List.length records.
Proof.
  intros customerData productMetrics table.
  set (joined := mapNonNull (joinSegment productMetrics) customerData).
  set (G := groupBy SegmentedRecord.segment joined).
  assert (Hlabels : Permutation (map SegmentAnalysis.segment table) (map fst G)).
  { unfold table, generateSegmentAnalysis. fold joined. fold G.
    rewrite (Permutation_map _ (orderByDesc_perm _ _)).
    rewrite map_map. rewrite (map_ext _ fst); [reflexivity|].
    intros g. apply segmentRow_segment. }
  split; [|split].
  - apply (Permutation_NoDup (Permutation_sym Hlabels)). apply groupBy_NoDup.
  - intros label. split.
    + intros Hin. apply (Permutation_in _ Hlabels) in Hin.
      apply in_map_iff in Hin. destruct Hin as ([k g] & Hk & Hg). simpl in Hk. subst k.
      destruct (groupBy_In _ _ _ _ Hg) as [_ Hne].
      destruct g as [|x g]; [congruence|].
      destruct (groupBy_member _ _ _ _ x Hg (or_introl eq_refl)) as [Hx Hseg].
      apply mapNonNull_In in Hx. destruct Hx as (r & Hr & Hjoin).
      destruct (joinSegment_Some _ _ _ Hjoin) as (Hm & _ & Hlabel).
      exists r. repeat split; try assumption. congruence.
    + intros (r & Hr & Hm & Hlabel).
      destruct (joinSegment_matched _ _ Hm) as (x & Hjoin).
      assert (Hx : In x joined) by (apply mapNonNull_In; eauto).
      pose proof (groupBy_complete SegmentedRecord.segment _ _ Hx) as Hg.
      apply (Permutation_in _ (Permutation_sym Hlabels)).
      destruct (joinSegment_Some _ _ _ Hjoin) as (_ & _ & Hseg).
      rewrite <- Hlabel, <- Hseg.
      change (SegmentedRecord.segment x)
        with (fst (SegmentedRecord.segment x,
                   filter (fun b => String.eqb (SegmentedRecord.segment x)
                                               (SegmentedRecord.segment b)) joined)).
      apply in_map, Hg.
  - intros row Hrow records.
    apply generateSegmentAnalysis_In in Hrow.
    destruct Hrow as ([label recs] & Hg & ->).
    destruct (groupBy_In _ _ _ _ Hg) as [Hrecs Hne].
    assert (Heq : records = recs).
    { unfold records, segmentRecords. rewrite segmentRow_segment. simpl.
      symmetry. exact Hrecs. }
    rewrite Heq. clear Heq records.
    cbn [segmentRow SegmentAnalysis.totalRevenue SegmentAnalysis.spaceConsumed
         SegmentAnalysis.customers].
    split; [exact Hne|]. split; [reflexivity|]. split; [reflexivity|]. split.
    + exists (map SegmentedRecord.Customer_Email
                (uniqBy SegmentedRecord.Customer_Email recs)).
      destruct (uniqFrom_keys SegmentedRecord.Customer_Email recs []) as [Hnd Hin].
      split; [exact Hnd|]. split; [|rewrite length_map; reflexivity].
      intros e. unfold uniqBy. rewrite Hin. simpl. tauto.
    + destruct (uniqBy_length_bounds SegmentedRecord.Customer_Email recs) as [Hle Hge].
      split; [apply Hge, Hne|exact Hle].
Qed.

(* ================================================================== *)
(** * Further properties: the order of the tables *)

Local Open Scope float_scope.

Ltac order_cases :=
  repeat match goal with
         | |- context [Z.compare ?a ?b] => destruct (Z.compare_spec a b)
         | |- context [Pos.compare_cont Eq ?a ?b] =>
             change (Pos.compare_cont Eq a b) with (Pos.compare a b);
             destruct (Pos.compare_spec a b)
         end.

Lemma SFltb_asym x y : SFltb x y = true -> SFltb y x = false.
Proof.
  unfold SFltb, SFcompare.
  destruct x as [[]|[]| |[] mx ex], y as [[]|[]| |[] my ey];
    try reflexivity; try discriminate;
    order_cases; simpl; intros; try reflexivity; try discriminate; try lia.
Qed.

Lemma SFltb_trans x y z :
  SFltb x y = true -> SFltb y z = true -> SFltb x z = true.
Proof.
  unfold SFltb, SFcompare.
  destruct x as [[]|[]| |[] mx ex], y as [[]|[]| |[] my ey],
           z as [[]|[]| |[] mz ez];
    try reflexivity; try discriminate;
    order_cases; simpl; intros; try reflexivity; try discriminate; try lia.
Qed.

Lemma SFnlt_trans x y z :
  match x with S754_nan => true | _ => false end = false ->
  match y with S754_nan => true | _ => false end = false ->
  match z with S754_nan => true | _ => false end = false ->
  SFltb x y = false -> SFltb y z = false -> SFltb x z = false.
Proof.
  unfold SFltb, SFcompare.
  destruct x as [[]|[]| |[] mx ex], y as [[]|[]| |[] my ey],
           z as [[]|[]| |[] mz ez];
    try reflexivity; try discriminate;
    order_cases; simpl; intros; try reflexivity; try discriminate; try lia.
Qed.

(** [<] on numbers is a strict order, and [>=] is transitive away from
    NaN. *)
Lemma lt_asym x y : (x <? y) = true -> (y <? x) = false.
Proof. rewrite !FloatAxioms.ltb_spec. apply SFltb_asym. Qed.

Lemma lt_trans x y z : (x <? y) = true -> (y <? z) = true -> (x <? z) = true.
Proof. rewrite !FloatAxioms.ltb_spec. apply SFltb_trans. Qed.

Lemma nlt_trans x y z :
  is_nan x = false -> is_nan y = false -> is_nan z = false ->
  (x <? y) = false -> (y <? z) = false -> (x <? z) = false.
Proof.
  rewrite !Binary64.is_nan_spec, !FloatAxioms.ltb_spec. apply SFnlt_trans.
Qed.

Lemma eqb_not_ltb x y : (x =? y) = true -> (x <? y) = false.
Proof.
  rewrite FloatAxioms.eqb_spec, FloatAxioms.ltb_spec. unfold SFeqb, SFltb.
  destruct (SFcompare (Prim2SF x) (Prim2SF y)) as [[]|]; congruence.
Qed.

Lemma ltb_not_nan x y :
  (x <? y) = true -> is_nan x = false /\ is_nan y = false.
Proof.
  rewrite !Binary64.is_nan_spec, FloatAxioms.ltb_spec. unfold SFltb, SFcompare.
  destruct (Prim2SF x), (Prim2SF y); try discriminate; auto.
Qed.

Lemma ltb_nan_r x y : is_nan y = true -> (x <? y) = false.
Proof.
  intros Hy. destruct (x <? y) eqn:E; [|reflexivity].
  apply ltb_not_nan in E. destruct E. congruence.
Qed.

Lemma compareAscending_asym x y :
  compareAscending x y = Lt -> compareAscending y x <> Lt.
Proof.
  unfold compareAscending.
  destruct (x =? y); [discriminate|].
  destruct ((y <? x) || is_nan x); [discriminate|].
  destruct ((x <? y) || is_nan y); [|discriminate]. intros _.
  destruct (y =? x); discriminate.
Qed.

Lemma compareAscending_not_Lt x y :
  is_nan x = false -> compareAscending x y <> Lt -> (x <? y) = false.
Proof.
  unfold compareAscending. intros Hx.
  destruct (x =? y) eqn:Heq; [intros _; apply eqb_not_ltb, Heq|].
  rewrite Hx, orb_false_r.
  destruct (y <? x) eqn:Hyx; [intros _; apply lt_asym, Hyx|].
  destruct (x <? y); [|reflexivity].
  simpl. congruence.
Qed.

Section OrderFacts.

Context {A : Type} (key : A -> number).

Lemma orderInsert_HdRel a b sorted :
  notBelow key b a -> HdRel (notBelow key) b sorted ->
  HdRel (notBelow key) b (orderInsert key a sorted).
Proof.
  intros Hba Hhd. destruct sorted as [|c rest]; simpl; [constructor; exact Hba|].
  inversion Hhd; subst.
  destruct (compareAscending (key a) (key c)); constructor; assumption.
Qed.

Lemma orderInsert_Sorted a sorted :
  Sorted (notBelow key) sorted -> Sorted (notBelow key) (orderInsert key a sorted).
Proof.
  induction sorted as [|b rest IH]; intros Hs; simpl.
  - repeat constructor.
  - inversion Hs as [|? ? Hrest Hhd]; subst.
    destruct (compareAscending (key a) (key b)) eqn:E.
    + constructor; [exact Hs|]. constructor. unfold notBelow. congruence.
    + constructor; [apply IH, Hrest|].
      apply orderInsert_HdRel; [|exact Hhd].
      apply compareAscending_asym, E.
    + constructor; [exact Hs|]. constructor. unfold notBelow. congruence.
Qed.

(** No row of an ordered table is directly followed by a row that lodash
    ranks strictly above it. *)
Lemma orderByDesc_Sorted l : Sorted (notBelow key) (orderByDesc key l).
Proof.
  induction l as [|a l IH]; simpl; [constructor|].
  apply orderInsert_Sorted, IH.
Qed.

(** When no key is NaN, no row has a smaller key than a row after it. *)
Lemma Sorted_descending l :
  (forall a, In a l -> is_nan (key a) = false) ->
  Sorted (notBelow key) l ->
  StronglySorted (fun a b => (key a <? key b) = false) l.
Proof.
  intros Hnan Hs. induction Hs as [|a l Hl IH Hhd]; [constructor|].
  assert (Hl' : forall b, In b l -> is_nan (key b) = false)
    by (intros b Hb; apply Hnan; right; exact Hb).
  specialize (IH Hl'). constructor; [exact IH|].
  destruct l as [|b rest]; [constructor|].
  inversion Hhd as [|? ? Hab]; subst.
  assert (Hfirst : (key a <? key b) = false).
  { apply compareAscending_not_Lt; [apply Hnan; left; reflexivity|exact Hab]. }
  constructor; [exact Hfirst|].
  inversion IH as [|? ? _ Hall]; subst.
  rewrite Forall_forall in Hall |- *. intros c Hc.
  apply (nlt_trans (key a) (key b) (key c)); auto.
  - apply Hnan. left. reflexivity.
  - apply Hl'. left. reflexivity.
  - apply Hl'. right. exact Hc.
Qed.

Lemma orderByDesc_descending l :
  (forall a, In a l -> is_nan (key a) = false) ->
  StronglySorted (fun a b => (key a <? key b) = false) (orderByDesc key l).
Proof.
  intros Hnan. apply Sorted_descending; [|apply orderByDesc_Sorted].
  intros a Ha. apply Hnan. apply orderByDesc_In in Ha. exact Ha.
Qed.

End OrderFacts.

(** X6.  Each of the three tables is returned in descending order of its
    sort key (revenuePerSqIn for segments, combinedEfficiency for affinity
    pairs, revenueWeightedSEI for profiles): when no row's key is NaN, no
    row has a smaller key than any row that comes after it. *)
Theorem tables_are_in_descending_order :
  forall (customerData : list CustomerRecord.t)
         (productMetrics : list EnrichedProduct.t),
    let descending {A} (key : A -> number) (table : list A) :=
      (forall row, In row table -> is_nan (key row) = false) ->
      StronglySorted (fun a b => (key a <? key b) = false) table in
    descending SegmentAnalysis.revenuePerSqIn
      (generateSegmentAnalysis customerData productMetrics)
    /\ descending AffinityAnalysis.combinedEfficiency
         (generateAffinityAnalysis customerData productMetrics)
    /\ exists profiles,
         generateCustomerProfiles customerData productMetrics = Return profiles
         /\ descending CustomerProfile.revenueWeightedSEI profiles.
Proof.
  intros customerData productMetrics descending.
  assert (Hsorted : forall A (key : A -> number) l,
             descending A key (orderByDesc key l)).
  { intros A key l Hnan. apply orderByDesc_descending.
    intros a Ha. apply Hnan. apply orderByDesc_In. exact Ha. }
  split; [apply Hsorted|]. split; [apply Hsorted|].
  destruct (generateCustomerProfiles_returns customerData productMetrics)
    as (rows & Hrun & _).
  exists (orderByDesc CustomerProfile.revenueWeightedSEI rows).
  split; [exact Hrun|apply Hsorted].
Qed.

(* ================================================================== *)
(** * Further properties: insight summaries *)

Section MaxBy.

Context {A : Type} (f : A -> number).

Lemma maxFrom_Some b l :
  is_nan (f b) = false ->
  exists r,
    maxFrom f (Some b) l = Some r
    /\ (r = b \/ In r l)
    /\ is_nan (f r) = false
    /\ (f r <? f b) = false
    /\ forall x, In x l -> (f r <? f x) = false.
Proof.
  revert b. induction l as [|x l IH]; intros b Hb.
  - exists b. simpl. repeat split; auto.
    + destruct (f b <? f b) eqn:E; [|reflexivity].
      pose proof (lt_asym _ _ E). congruence.
    + intros x [].
  - cbn [maxFrom]. destruct (f b <? f x) eqn:Hbx.
    + destruct (ltb_not_nan _ _ Hbx) as [_ Hx].
      destruct (IH x Hx) as (r & Hr & Hin & Hnan & Hrx & Hall).
      exists r. split; [exact Hr|]. split; [right; destruct Hin; [left|right]; auto|].
      split; [exact Hnan|]. split.
      * destruct (f r <? f b) eqn:Hrb; [|reflexivity].
        pose proof (lt_trans _ _ _ Hrb Hbx). congruence.
      * intros y [<-|Hy]; auto.
    + destruct (IH b Hb) as (r & Hr & Hin & Hnan & Hrb & Hall).
      exists r. split; [exact Hr|]. split; [destruct Hin; [left|right; right]; auto|].
      split; [exact Hnan|]. split; [exact Hrb|].
      intros y [<-|Hy]; [|auto].
      destruct (is_nan (f x)) eqn:Hx; [apply ltb_nan_r, Hx|].
      apply (nlt_trans (f r) (f b) (f x)); assumption.
Qed.

(** [_.maxBy] returns an element whose value is a number that no other
    value exceeds, and nothing when every value is NaN. *)
Lemma maxBy_spec l :
  match maxBy f l with
  | Some r =>
      In r l /\ is_nan (f r) = false
      /\ forall x, In x l -> (f r <? f x) = false
  | None => forall x, In x l -> is_nan (f x) = true
  end.
Proof.
  unfold maxBy. induction l as [|x l IH]; [intros x []|].
  cbn [maxFrom]. destruct (is_nan (f x)) eqn:Hx.
  - destruct (maxFrom f None l) as [r|].
    + destruct IH as (Hin & Hnan & Hall). split; [right; exact Hin|].
      split; [exact Hnan|]. intros y [<-|Hy]; [apply ltb_nan_r, Hx|auto].
    + intros y [<-|Hy]; auto.
  - destruct (maxFrom_Some x l Hx) as (r & Hr & Hin & Hnan & Hrx & Hall).
    rewrite Hr. split; [destruct Hin; [left|right]; auto|].
    split; [exact Hnan|]. intros y [<-|Hy]; auto.
Qed.

End MaxBy.

Lemma at_nat {A} (l : list A) (n : nat) : at_ l (Z.of_nat n) = nth_error l n.
Proof.
  unfold at_. destruct (Z.ltb_spec (Z.of_nat n) 0); [lia|].
  rewrite Nat2Z.id. reflexivity.
Qed.

Lemma last_cons {A} (l : list A) x y : last (y :: l) x = last l y.
Proof.
  revert x y. induction l as [|z l IH]; intros x y; [reflexivity|].
  change (last (y :: z :: l) x) with (last (z :: l) x).
  change (last (z :: l) y) with (last (z :: l) y).
  rewrite (IH x z), (IH y z). reflexivity.
Qed.

Lemma nth_error_last {A} (l : list A) x :
  nth_error (x :: l) (List.length l) = Some (last l x).
Proof.
  revert x. induction l as [|y l IH]; intros x; [reflexivity|].
  change (nth_error (x :: y :: l) (List.length (y :: l)))
    with (nth_error (y :: l) (List.length l)).
  rewrite IH, last_cons. reflexivity.
Qed.

Lemma at_last {A} (first : A) (rest : list A) :
  at_ (first :: rest) (Z.of_nat (List.length (first :: rest)) - 1)
  = Some (last (first :: rest) first).
Proof.
  replace (Z.of_nat (List.length (first :: rest)) - 1)%Z
    with (Z.of_nat (List.length rest)) by (simpl List.length; lia).
  rewrite at_nat, nth_error_last, last_cons. reflexivity.
Qed.

Lemma filter_length_le {A} (f : A -> bool) l :
  (List.length (filter f l) <= List.length l)%nat.
Proof.
  induction l as [|a l IH]; simpl; [lia|]. destruct (f a); simpl; lia.
Qed.

(** X7.  On non-empty tables [generateInsightSummaries] takes the top segment,
    top affinity pair and top customer from the first rows and the bottom
    segment from the last row; with a single segment the top and bottom
    segments are the same row.  The number of high-efficiency pairs never
    exceeds the number of pairs, and the number of multi-product customers
    never exceeds the number of customers. *)
Theorem generateInsightSummaries_selects_rows :
  forall (segmentAnalysis : list SegmentAnalysis.t)
         (affinityAnalysis : list AffinityAnalysis.t)
         (customerProfiles : list CustomerProfile.t),
    let summary :=
      generateInsightSummaries segmentAnalysis affinityAnalysis customerProfiles in
    let segments := InsightSummaries.segmentInsights_ summary in
    let pairs := InsightSummaries.affinityInsights_ summary in
    let customers := InsightSummaries.customerInsights_ summary in
    (forall first rest, segmentAnalysis = first :: rest ->
        InsightSummaries.topSegment segments = Some first
        /\ InsightSummaries.bottomSegment segments
           = Some (last segmentAnalysis first)
        /\ (rest = [] -> InsightSummaries.bottomSegment segments
                         = InsightSummaries.topSegment segments))
    /\ (forall first rest, affinityAnalysis = first :: rest ->
          InsightSummaries.topAffinity pairs = Some first)
    /\ (forall first rest, customerProfiles = first :: rest ->
          InsightSummaries.topCustomer customers = Some first)
    /\ (InsightSummaries.highEfficiencyPairs pairs
        <= InsightSummaries.totalAffinityPairs pairs)%nat
    /\ (InsightSummaries.multiProductCustomers customers
        <= InsightSummaries.totalCustomers customers)%nat
    /\ InsightSummaries.totalSegments segments = List.length segmentAnalysis
    /\ InsightSummaries.totalAffinityPairs pairs = List.length affinityAnalysis
    /\ InsightSummaries.totalCustomers customers = List.length customerProfiles.
Proof.
  intros seg aff prof summary segments pairs customers.
  unfold segments, pairs, customers, summary, generateInsightSummaries.
  cbn [InsightSummaries.segmentInsights_ InsightSummaries.affinityInsights_
       InsightSummaries.customerInsights_ InsightSummaries.topSegment
       InsightSummaries.bottomSegment InsightSummaries.totalSegments
       InsightSummaries.topAffinity InsightSummaries.totalAffinityPairs
       InsightSummaries.highEfficiencyPairs InsightSummaries.topCustomer
       InsightSummaries.multiProductCustomers InsightSummaries.totalCustomers].
  split; [|split; [|split; [|split; [|split]]]].
  - intros first rest ->. split; [reflexivity|].
    split; [apply at_last|]. intros ->. reflexivity.
  - intros first rest ->. reflexivity.
  - intros first rest ->. reflexivity.
  - apply filter_length_le.
  - apply filter_length_le.
  - repeat split.
Qed.

(** X8.  The highest-efficiency segment of the summary is a row of the
    segment table whose weightedAvgSEI is a number that no other row's
    exceeds; rows whose weightedAvgSEI is NaN are never selected, and the
    field is undefined exactly when every row's weightedAvgSEI is NaN (in
    particular on an empty table). *)
Theorem highestEfficiencySegment_is_a_maximum :
  forall (segmentAnalysis : list SegmentAnalysis.t)
         (affinityAnalysis : list AffinityAnalysis.t)
         (customerProfiles : list CustomerProfile.t),
    match InsightSummaries.highestEfficiencySegment
            (InsightSummaries.segmentInsights_
               (generateInsightSummaries segmentAnalysis affinityAnalysis
                  customerProfiles)) with
    | Some best =>
        In best segmentAnalysis
        /\ is_nan (SegmentAnalysis.weightedAvgSEI best) = false
        /\ forall row, In row segmentAnalysis ->
             (SegmentAnalysis.weightedAvgSEI best
              <? SegmentAnalysis.weightedAvgSEI row) = false
    | None =>
        forall row, In row segmentAnalysis ->
                    is_nan (SegmentAnalysis.weightedAvgSEI row) = true
    end.
Proof.
  intros seg aff prof.
  exact (maxBy_spec SegmentAnalysis.weightedAvgSEI seg).
Qed.

(* ================================================================== *)
(** * Further properties: affinity pairs *)

Lemma affinityRow_fields productMetrics productPair records row :
  affinityRow productMetrics (productPair, records) = Some row ->
  exists product1Metrics product2Metrics,
    findProduct productMetrics (AffinityAnalysis.anchorProduct row)
    = Some product1Metrics
    /\ findProduct productMetrics (AffinityAnalysis.boughtWithProduct row)
       = Some product2Metrics
    /\ AffinityAnalysis.anchorSEI row
       = round1 (EnrichedProduct.spaceEfficiencyIndex product1Metrics)
    /\ AffinityAnalysis.boughtWithSEI row
       = round1 (EnrichedProduct.spaceEfficiencyIndex product2Metrics)
    /\ AffinityAnalysis.combinedEfficiency row
       = Math_round
           ((EnrichedProduct.spaceEfficiencyIndex product1Metrics
             + EnrichedProduct.spaceEfficiencyIndex product2Metrics) / 2 * 10)
         / 10
    /\ AffinityAnalysis.coPurchases row = List.length records.
Proof.
  unfold affinityRow.
  destruct (at_ (split " + " productPair) 0) as [product1|]; [|discriminate].
  destruct (at_ (split " + " productPair) 1) as [product2|]; [|discriminate].
  destruct (findProduct productMetrics product1) as [m1|] eqn:H1; [|discriminate].
  destruct (findProduct productMetrics product2) as [m2|] eqn:H2; [|discriminate].
  intros H. injection H as <-. exists m1, m2.
  cbn [AffinityAnalysis.anchorProduct AffinityAnalysis.boughtWithProduct
       AffinityAnalysis.anchorSEI AffinityAnalysis.boughtWithSEI
       AffinityAnalysis.combinedEfficiency AffinityAnalysis.coPurchases].
  repeat split; assumption.
Qed.

Lemma findProduct_Some productMetrics name p :
  findProduct productMetrics name = Some p ->
  In p productMetrics /\ EnrichedProduct.Product_Name p = name.
Proof.
  unfold findProduct. intros H. apply find_some in H.
  destruct H as [Hin Heq]. apply String.eqb_eq in Heq. auto.
Qed.

(** X9.  Every row of the affinity analysis names two products of the
    catalog: its two indices are the catalog products' space efficiency
    indices rounded to one decimal, and its combined efficiency is their
    rounded mean.  Its co-purchase count is the size of a non-empty bucket
    of candidate pairs with a common key, so it is at least 1. *)
Theorem affinity_rows_name_catalog_products :
  forall (customerData : list CustomerRecord.t)
         (productMetrics : list EnrichedProduct.t) (row : AffinityAnalysis.t),
    In row (generateAffinityAnalysis customerData productMetrics) ->
    exists product1 product2 key,
      In product1 productMetrics /\ In product2 productMetrics
      /\ EnrichedProduct.Product_Name product1 = AffinityAnalysis.anchorProduct row
      /\ EnrichedProduct.Product_Name product2
         = AffinityAnalysis.boughtWithProduct row
      /\ AffinityAnalysis.anchorSEI row
         = round1 (EnrichedProduct.spaceEfficiencyIndex product1)
      /\ AffinityAnalysis.boughtWithSEI row
         = round1 (EnrichedProduct.spaceEfficiencyIndex product2)
      /\ AffinityAnalysis.combinedEfficiency row
         = Math_round
             ((EnrichedProduct.spaceEfficiencyIndex product1
               + EnrichedProduct.spaceEfficiencyIndex product2) / 2 * 10)
           / 10
      /\ AffinityAnalysis.coPurchases row
         = List.length (filter (fun cp => String.eqb key (pairKey cp))
                               (coPurchasesOf customerData))
      /\ (1 <= AffinityAnalysis.coPurchases row)%nat.
Proof.
  intros customerData productMetrics row Hrow.
  apply generateAffinityAnalysis_In in Hrow.
  destruct Hrow as ([key records] & Hgroup & Hmake).
  destruct (affinityRow_fields _ _ _ _ Hmake)
    as (m1 & m2 & H1 & H2 & Hs1 & Hs2 & Hc & Hn).
  destruct (findProduct_Some _ _ _ H1) as [Hin1 Hname1].
  destruct (findProduct_Some _ _ _ H2) as [Hin2 Hname2].
  destruct (groupBy_In _ _ _ _ Hgroup) as [Hrecords Hne].
  exists m1, m2, key. repeat split; try assumption.
  - rewrite Hn, Hrecords. reflexivity.
  - rewrite Hn. destruct records; [congruence|]. simpl. lia.
Qed.

(** The theorem at Ann's lamp and rug. *)
Lemma affinity_rows_name_catalog_products_for_ann :
  let customerData :=
    [ purchase "ann@example.com" "Lamp" 1 100;
      purchase "ann@example.com" "Rug" 1 50 ] in
  let row := AffinityAnalysis.mk "Lamp" 133.3 "Rug" 66.7 1%nat 100 in
  In row (generateAffinityAnalysis customerData (enrich [lamp; rug]))
  /\ exists product1 product2 key,
       In product1 (enrich [lamp; rug]) /\ In product2 (enrich [lamp; rug])
       /\ EnrichedProduct.Product_Name product1 = AffinityAnalysis.anchorProduct row
       /\ EnrichedProduct.Product_Name product2
          = AffinityAnalysis.boughtWithProduct row
       /\ AffinityAnalysis.anchorSEI row
          = round1 (EnrichedProduct.spaceEfficiencyIndex product1)
       /\ AffinityAnalysis.boughtWithSEI row
          = round1 (EnrichedProduct.spaceEfficiencyIndex product2)
       /\ AffinityAnalysis.combinedEfficiency row
          = Math_round
              ((EnrichedProduct.spaceEfficiencyIndex product1
                + EnrichedProduct.spaceEfficiencyIndex product2) / 2 * 10)
            / 10
       /\ AffinityAnalysis.coPurchases row
          = List.length (filter (fun cp => String.eqb key (pairKey cp))
                                (coPurchasesOf customerData))
       /\ (1 <= AffinityAnalysis.coPurchases row)%nat.
Proof.
  intros customerData row.
  assert (Hrow : In row (generateAffinityAnalysis customerData (enrich [lamp; rug])))
    by (vm_compute; left; reflexivity).
  split; [exact Hrow|].
  exact (affinity_rows_name_catalog_products customerData (enrich [lamp; rug])
           row Hrow).
Defined.

(** X10.  The key of a pair does not depend on the order of its two names nor
    on the customer: a customer who bought B then A lands in the bucket of
    A then B. *)
Theorem pair_key_is_order_independent :
  forall (customer1 customer2 a b : string),
    pairKey (CoPurchase.mk customer1 a b) = pairKey (CoPurchase.mk customer2 b a)
    /\ sort [a; b] = sort [b; a]
    /\ (String.ltb b a = false ->
        pairKey (CoPurchase.mk customer1 a b) = (a ++ " + " ++ b)%string)
    /\ (String.ltb b a = true ->
        pairKey (CoPurchase.mk customer1 a b) = (b ++ " + " ++ a)%string).
Proof.
  intros customer1 customer2 a b.
  split; [apply pairKey_comm|]. split; [apply sort_pair_comm|].
  unfold pairKey. cbn [CoPurchase.product1 CoPurchase.product2].
  rewrite sort_pair. split; intros ->; reflexivity.
Qed.

(** X11.  For two product names without ['+'], cutting the pair key at the
    separator gives back exactly two pieces: the two names, the smaller one
    in code-unit order first, whichever order they were bought in. *)
Theorem pair_key_round_trip :
  forall (customer a b : string),
    hasPlus a = false ->
    hasPlus b = false ->
    exists first second,
      split " + " (pairKey (CoPurchase.mk customer a b)) = [first; second]
      /\ (first = a /\ second = b \/ first = b /\ second = a)
      /\ String.ltb second first = false
      /\ (a <> b -> String.ltb first second = true).
Proof.
  intros customer a b Ha Hb. unfold pairKey.
  cbn [CoPurchase.product1 CoPurchase.product2].
  rewrite sort_pair. destruct (String.ltb b a) eqn:Hlt.
  - exists b, a. split; [apply split_join; assumption|].
    split; [right; split; reflexivity|].
    split; [apply ltb_asym; exact Hlt|]. intros _. exact Hlt.
  - exists a, b. split; [apply split_join; assumption|].
    split; [left; split; reflexivity|].
    split; [exact Hlt|]. intros Hab.
    destruct (String.ltb a b) eqn:Hgt; [reflexivity|].
    exfalso. apply Hab. apply ltb_total; assumption.
Qed.

(** The theorem at a rug bought before a lamp: the lamp comes first. *)
Lemma pair_key_round_trip_for_rug_and_lamp :
  (hasPlus "Rug" = false /\ hasPlus "Lamp" = false)
  /\ exists first second,
       split " + " (pairKey (CoPurchase.mk "ann@example.com" "Rug" "Lamp"))
       = [first; second]
       /\ (first = "Rug"%string /\ second = "Lamp"%string
           \/ first = "Lamp"%string /\ second = "Rug"%string)
       /\ String.ltb second first = false
       /\ ("Rug"%string <> "Lamp"%string -> String.ltb first second = true).
Proof.
  split; [split; reflexivity|].
  apply (pair_key_round_trip "ann@example.com" "Rug" "Lamp"); reflexivity.
Defined.

Lemma findProduct_matched productMetrics r :
  findProduct productMetrics (CustomerRecord.Product_Name r) <> None ->
  matched productMetrics r = true.
Proof.
  unfold matched.
  destruct (findProduct productMetrics (CustomerRecord.Product_Name r));
    [reflexivity|congruence].
Qed.

(** X12.  When no product name contains ['+'], every row of the affinity
    analysis comes from two distinct rows of one customer that both name
    catalog products; the row reports their two names in sorted order, and
    the two orders of a pair are never both reported. *)
Theorem affinity_rows_come_from_co_purchases :
  forall (customerData : list CustomerRecord.t)
         (productMetrics : list EnrichedProduct.t),
    (forall r, In r customerData ->
               hasPlus (CustomerRecord.Product_Name r) = false) ->
    forall row, In row (generateAffinityAnalysis customerData productMetrics) ->
      String.ltb (AffinityAnalysis.boughtWithProduct row)
                 (AffinityAnalysis.anchorProduct row) = false
      /\ (exists customerEmail before p after q,
            rowsOf customerEmail customerData = before ++ p :: after
            /\ In q after
            /\ matched productMetrics p = true
            /\ matched productMetrics q = true
            /\ sort [CustomerRecord.Product_Name p; CustomerRecord.Product_Name q]
               = [AffinityAnalysis.anchorProduct row;
                  AffinityAnalysis.boughtWithProduct row])
      /\ forall other,
           In other (generateAffinityAnalysis customerData productMetrics) ->
           AffinityAnalysis.anchorProduct other
           = AffinityAnalysis.boughtWithProduct row ->
           AffinityAnalysis.boughtWithProduct other
           = AffinityAnalysis.anchorProduct row ->
           other = row.
Proof.
  intros customerData productMetrics Hplus row Hrow.
  pose proof Hrow as Hrow'.
  apply generateAffinityAnalysis_In in Hrow'.
  destruct Hrow' as ([key records] & Hgroup & Hmake).
  destruct (affinity_row_names customerData productMetrics Hplus _ _ _ Hgroup Hmake)
    as (_ & Hlt & _).
  split; [exact Hlt|]. split.
  - destruct (groupBy_In _ _ _ _ Hgroup) as [_ Hne].
    destruct records as [|cp records']; [congruence|].
    destruct (groupBy_member pairKey _ _ _ cp Hgroup (or_introl eq_refl))
      as [Hcp Hkey].
    apply coPurchasesOf_In in Hcp.
    destruct (pairsOf_In _ _ _ Hcp) as (before & p & q & after & Hrows & Hq & H1 & H2).
    assert (Hsub : forall x, In x (before ++ p :: after) -> In x customerData).
    { intros x Hx. rewrite <- Hrows in Hx. apply filter_In in Hx. tauto. }
    assert (Hp : hasPlus (CustomerRecord.Product_Name p) = false).
    { apply Hplus, Hsub, in_or_app. right. left. reflexivity. }
    assert (Hq' : hasPlus (CustomerRecord.Product_Name q) = false).
    { apply Hplus, Hsub, in_or_app. right. right. exact Hq. }
    destruct (affinityRow_Some _ _ _ _ Hmake) as (Hanchor & Hbought & Hf1 & Hf2 & _).
    rewrite <- Hkey in Hanchor, Hbought. unfold pairKey in Hanchor, Hbought.
    rewrite H1, H2 in Hanchor, Hbought.
    exists (CoPurchase.customer cp), before, p, after, q.
    split; [exact Hrows|]. split; [exact Hq|].
    rewrite sort_pair in Hanchor, Hbought |- *.
    destruct (String.ltb (CustomerRecord.Product_Name q)
                         (CustomerRecord.Product_Name p));
      rewrite split_join in Hanchor, Hbought by assumption;
      rewrite at_first in Hanchor; rewrite at_second in Hbought;
      injection Hanchor as Ha; injection Hbought as Hb;
      rewrite <- Ha in Hf1; rewrite <- Hb in Hf2;
      (split; [apply findProduct_matched; assumption|]);
      (split; [apply findProduct_matched; assumption|]);
      congruence.
  - intros other Hother Hab Hba.
    apply (one_row_per_unordered_pair customerData productMetrics Hplus);
      assumption.
Qed.

(** The theorem at the purchases of Ann and Bob. *)
Lemma affinity_rows_come_from_co_purchases_for_ann :
  let customerData :=
    [ purchase "ann@example.com" "Rug" 1 50;
      purchase "bob@example.com" "Lamp" 3 300;
      purchase "ann@example.com" "Lamp" 1 100 ] in
  let productMetrics := enrich [lamp; rug] in
  let row := AffinityAnalysis.mk "Lamp" 133.3 "Rug" 66.7 1%nat 100 in
  ((forall r, In r customerData ->
              hasPlus (CustomerRecord.Product_Name r) = false)
   /\ In row (generateAffinityAnalysis customerData productMetrics))
  /\ String.ltb (AffinityAnalysis.boughtWithProduct row)
                (AffinityAnalysis.anchorProduct row) = false
  /\ (exists customerEmail before p after q,
        rowsOf customerEmail customerData = before ++ p :: after
        /\ In q after
        /\ matched productMetrics p = true
        /\ matched productMetrics q = true
        /\ sort [CustomerRecord.Product_Name p; CustomerRecord.Product_Name q]
           = [AffinityAnalysis.anchorProduct row;
              AffinityAnalysis.boughtWithProduct row])
  /\ forall other,
       In other (generateAffinityAnalysis customerData productMetrics) ->
       AffinityAnalysis.anchorProduct other
       = AffinityAnalysis.boughtWithProduct row ->
       AffinityAnalysis.boughtWithProduct other
       = AffinityAnalysis.anchorProduct row ->
       other = row.
Proof.
  intros customerData productMetrics row.
  assert (Hplus : forall r, In r customerData ->
                            hasPlus (CustomerRecord.Product_Name r) = false).
  { intros r [<-|[<-|[<-|[]]]]; reflexivity. }
  assert (Hrow : In row (generateAffinityAnalysis customerData productMetrics))
    by (vm_compute; left; reflexivity).
  split; [split; assumption|].
  exact (affinity_rows_come_from_co_purchases customerData productMetrics
           Hplus row Hrow).
Defined.

(* ================================================================== *)
(** * Further properties: the joins and the customer profiles *)

(** X13.  Purchase rows whose product name is not in the catalog have no
    influence on the segment table and on the customer profiles: both are
    what they would be without these rows, and both are empty when no row
    names a catalog product. *)
Theorem joins_ignore_unmatched_rows :
  forall (customerData : list CustomerRecord.t)
         (productMetrics : list EnrichedProduct.t),
    generateSegmentAnalysis (filter (matched productMetrics) customerData)
      productMetrics
    = generateSegmentAnalysis customerData productMetrics
    /\ generateCustomerProfiles (filter (matched productMetrics) customerData)
         productMetrics
       = generateCustomerProfiles customerData productMetrics
    /\ ((forall r, In r customerData -> matched productMetrics r = false) ->
        generateSegmentAnalysis customerData productMetrics = []
        /\ generateCustomerProfiles customerData productMetrics = Return []).
Proof.
  intros customerData productMetrics.
  destruct (unmatched_rows_are_dropped_by_the_joins customerData productMetrics)
    as [Hsegment Hprofile].
  split; [exact Hsegment|]. split; [exact Hprofile|].
  intros Hnone. rewrite <- Hsegment, <- Hprofile.
  rewrite (filter_none _ _ Hnone). split; reflexivity.
Qed.

Lemma Forall2_In_r {A B} (R : A -> B -> Prop) l l' b :
  Forall2 R l l' -> In b l' -> exists a, In a l /\ R a b.
Proof.
  induction 1 as [|x y l l' Hxy _ IH]; intros Hin; [destruct Hin|].
  destruct Hin as [->|Hin]; [exists x; simpl; auto|].
  destruct (IH Hin) as (a & Ha & HR). exists a. simpl. auto.
Qed.

(** The purchases kept for a customer are the customer's rows that name a
    catalog product, in input order. *)
Lemma profilePurchases_records productMetrics customerEmail customerData :
  map EnrichedCustomer.record
      (profilePurchases productMetrics customerEmail customerData)
  = filter (matchedRowOf productMetrics customerEmail) customerData.
Proof.
  unfold profilePurchases, matchedRowOf, matched, joinProfile.
  induction customerData as [|c l IH]; [reflexivity|].
  cbn [mapNonNull filter].
  destruct (findProduct productMetrics (CustomerRecord.Product_Name c)).
  - cbn [filter]. unfold EnrichedCustomer.Customer_Email at 1.
    cbn [EnrichedCustomer.record].
    rewrite andb_true_r.
    destruct (String.eqb customerEmail (CustomerRecord.Customer_Email c));
      cbn [map EnrichedCustomer.record]; rewrite IH; reflexivity.
  - rewrite andb_false_r. exact IH.
Qed.

Lemma filter_head {A} (f : A -> bool) l first rest :
  filter f l = first :: rest ->
  exists before after,
    l = before ++ first :: after
    /\ f first = true
    /\ forall a, In a before -> f a = false.
Proof.
  induction l as [|a l IH]; [discriminate|]. simpl.
  destruct (f a) eqn:Ha.
  - intros H. injection H as <- _. exists [], l. repeat split; auto.
    intros ? [].
  - intros H. destruct (IH H) as (before & after & -> & Hf & Hb).
    exists (a :: before), after. repeat split; auto.
    intros x [<-|Hx]; auto.
Qed.

(** The profiles, as a set: one per customer with a kept purchase, built
    from that customer's kept purchases. *)
Lemma profiles_spec customerData productMetrics :
  exists profiles,
    generateCustomerProfiles customerData productMetrics = Return profiles
    /\ NoDup (map CustomerProfile.customerEmail profiles)
    /\ forall row,
         In row profiles <->
         exists first rest,
           profilePurchases productMetrics (CustomerProfile.customerEmail row)
             customerData = first :: rest
           /\ profileRow (CustomerProfile.customerEmail row, first :: rest)
              = Return row.
Proof.
  destruct (generateCustomerProfiles_returns customerData productMetrics)
    as (rows & Hrun & Hrows).
  set (joined := mapNonNull (joinProfile productMetrics) customerData) in *.
  exists (orderByDesc CustomerProfile.revenueWeightedSEI rows).
  split; [exact Hrun|]. split.
  - apply (Permutation_NoDup
             (Permutation_map _ (Permutation_sym (orderByDesc_perm _ rows)))).
    rewrite (profile_emails _ _ Hrows). apply groupBy_NoDup.
  - intros row. rewrite orderByDesc_In. split.
    + intros Hrow.
      destruct (Forall2_In_r _ _ _ _ Hrows Hrow) as ([email purchases] & Hg & Hmake).
      pose proof (profileRow_email _ _ Hmake) as Hemail. simpl in Hemail.
      destruct (groupBy_In _ _ _ _ Hg) as [Hpurchases Hne].
      destruct purchases as [|first rest]; [congruence|].
      exists first, rest. rewrite Hemail. split; [|exact Hmake].
      unfold profilePurchases. fold joined. symmetry. exact Hpurchases.
    + intros (first & rest & Hpurchases & Hmake).
      assert (Hfirst : In first joined /\
                       EnrichedCustomer.Customer_Email first
                       = CustomerProfile.customerEmail row).
      { assert (H : In first (profilePurchases productMetrics
                                (CustomerProfile.customerEmail row) customerData))
          by (rewrite Hpurchases; left; reflexivity).
        apply filter_In in H. destruct H as [H1 H2].
        apply String.eqb_eq in H2. auto. }
      destruct Hfirst as [Hin Hemail].
      pose proof (groupBy_complete EnrichedCustomer.Customer_Email joined _ Hin) as Hg.
      rewrite Hemail in Hg.
      change (filter (fun b => String.eqb (CustomerProfile.customerEmail row)
                                          (EnrichedCustomer.Customer_Email b)) joined)
        with (profilePurchases productMetrics (CustomerProfile.customerEmail row)
                customerData) in Hg.
      rewrite Hpurchases in Hg.
      destruct (Forall2_In_l _ _ _ _ Hrows Hg) as (row' & Hrow' & Hmake').
      congruence.
Qed.

Lemma sumBy_map {A B} (g : A -> B) (f : B -> number) l :
  sumBy f (map g l) = sumBy (fun a => f (g a)) l.
Proof.
  destruct l as [|x l]; [reflexivity|]. simpl.
  generalize (f (g x)) as acc.
  induction l as [|y l IH]; intros acc; [reflexivity|]. simpl. apply IH.
Qed.

Lemma filter_nonempty {A} (f : A -> bool) l :
  filter f l <> [] <-> exists a, In a l /\ f a = true.
Proof.
  split.
  - destruct (filter f l) as [|a rest] eqn:Hf; [congruence|]. intros _.
    exists a. apply filter_In. rewrite Hf. left. reflexivity.
  - intros (a & Ha) Hf. apply filter_In in Ha. rewrite Hf in Ha. destruct Ha.
Qed.

(** X14.  The customer profiles always come out, with one profile per
    customer who has a row naming a catalog product and none for any other
    customer; a profile counts that customer's matched rows (at least one)
    and adds up their revenue in input order. *)
Theorem one_profile_per_matched_customer :
  forall (customerData : list CustomerRecord.t)
         (productMetrics : list EnrichedProduct.t),
  exists profiles,
    generateCustomerProfiles customerData productMetrics = Return profiles
    /\ NoDup (map CustomerProfile.customerEmail profiles)
    /\ (forall customerEmail,
          In customerEmail (map CustomerProfile.customerEmail profiles) <->
          exists r, In r customerData
                    /\ matchedRowOf productMetrics customerEmail r = true)
    /\ forall row, In row profiles ->
         let rows := filter (matchedRowOf productMetrics
                               (CustomerProfile.customerEmail row))
                            customerData in
         CustomerProfile.productsBought row = List.length rows
         /\ 1 <= CustomerProfile.productsBought row
         /\ CustomerProfile.totalSpent row
            = sumBy CustomerRecord.Revenue_Generated rows.
Proof.
  intros customerData productMetrics.
  destruct (profiles_spec customerData productMetrics)
    as (profiles & Hrun & Hnodup & Hrows).
  exists profiles. split; [exact Hrun|]. split; [exact Hnodup|].
  assert (Hfields : forall row, In row profiles ->
            CustomerProfile.productsBought row
            = List.length (filter (matchedRowOf productMetrics
                                     (CustomerProfile.customerEmail row))
                                  customerData)
            /\ 1 <= CustomerProfile.productsBought row
            /\ CustomerProfile.totalSpent row
               = sumBy CustomerRecord.Revenue_Generated
                   (filter (matchedRowOf productMetrics
                              (CustomerProfile.customerEmail row))
                           customerData)).
  { intros row Hrow. apply Hrows in Hrow.
    destruct Hrow as (first & rest & Hpurchases & Hmake).
    rewrite <- profilePurchases_records, Hpurchases.
    rewrite profileRow_fields in Hmake. injection Hmake as <-.
    cbn [CustomerProfile.productsBought CustomerProfile.totalSpent].
    rewrite length_map, sumBy_map. repeat split. simpl. lia. }
  split; [|exact Hfields].
  intros customerEmail. rewrite <- filter_nonempty, <- profilePurchases_records.
  split.
  - intros Hin. apply in_map_iff in Hin. destruct Hin as (row & <- & Hrow).
    apply Hrows in Hrow. destruct Hrow as (first & rest & -> & _). discriminate.
  - intros Hne.
    destruct (profilePurchases productMetrics customerEmail customerData)
      as [|first rest] eqn:Hpurchases; [simpl in Hne; congruence|].
    destruct (profileRow_returns customerEmail (first :: rest)) as [row Hmake];
      [discriminate|].
    pose proof (profileRow_email _ _ Hmake) as Hemail. simpl in Hemail.
    apply in_map_iff. exists row. split; [exact Hemail|].
    apply Hrows. exists first, rest. rewrite Hemail. auto.
Qed.

(** X15.  A profile's age range and income tier are those of the customer's
    first row, in input order, that names a catalog product: later rows of
    the same customer, and earlier rows with unknown products, do not
    matter. *)
Theorem profile_demographics_come_from_first_matched_row :
  forall (customerData : list CustomerRecord.t)
         (productMetrics : list EnrichedProduct.t),
  exists profiles,
    generateCustomerProfiles customerData productMetrics = Return profiles
    /\ forall row, In row profiles ->
         exists before first after,
           customerData = before ++ first :: after
           /\ matchedRowOf productMetrics
                (CustomerProfile.customerEmail row) first = true
           /\ (forall r, In r before ->
                 matchedRowOf productMetrics
                   (CustomerProfile.customerEmail row) r = false)
           /\ CustomerProfile.ageRange row = CustomerRecord.Age_Range first
           /\ CustomerProfile.incomeTier row = CustomerRecord.Income_Tier first.
Proof.
  intros customerData productMetrics.
  destruct (profiles_spec customerData productMetrics)
    as (profiles & Hrun & _ & Hrows).
  exists profiles. split; [exact Hrun|].
  intros row Hrow. apply Hrows in Hrow.
  destruct Hrow as (first & rest & Hpurchases & Hmake).
  pose proof (profilePurchases_records productMetrics
                (CustomerProfile.customerEmail row) customerData) as Hrecords.
  rewrite Hpurchases in Hrecords. cbn [map] in Hrecords. symmetry in Hrecords.
  destruct (filter_head _ _ _ _ Hrecords) as (before & after & Hsplit & Hfirst & Hbefore).
  exists before, (EnrichedCustomer.record first), after.
  rewrite profileRow_fields in Hmake. injection Hmake as <-.
  cbn [CustomerProfile.customerEmail CustomerProfile.ageRange
       CustomerProfile.incomeTier] in *.
  repeat split; auto.
Qed.

(* ================================================================== *)
(** * Further properties: the catalog lookup of the joins *)

Lemma find_split {A} (f : A -> bool) l x :
  find f l = Some x ->
  exists before after,
    l = before ++ x :: after
    /\ f x = true
    /\ forall a, In a before -> f a = false.
Proof.
  induction l as [|a l IH]; [discriminate|]. simpl.
  destruct (f a) eqn:Ha.
  - intros H. injection H as <-. exists [], l. repeat split; auto.
    intros ? [].
  - intros H. destruct (IH H) as (before & after & -> & Hf & Hb).
    exists (a :: before), after. repeat split; auto.
    intros y [<-|Hy]; auto.
Qed.

Lemma enrich_products productData :
  map EnrichedProduct.product (enrich productData) = productData.
Proof.
  unfold enrich. rewrite map_map. cbn [withPageMetrics EnrichedProduct.product].
  apply calculateProductMetrics_products.
Qed.

Lemma enrich_index productData p :
  In p (enrich productData) ->
  EnrichedProduct.spaceEfficiencyIndex p
  = (EnrichedProduct.Product_Sales_Revenue p / EnrichedProduct.Square_Inches p)
    / (sumBy ProductRecord.Product_Sales_Revenue productData
       / sumBy ProductRecord.Square_Inches productData)
    * 100.
Proof.
  unfold enrich. intros Hp. apply in_map_iff in Hp.
  destruct Hp as (e & <- & He).
  unfold calculateProductMetrics in He. apply in_map_iff in He.
  destruct He as (q & <- & _). reflexivity.
Qed.

(** X16.  The joins look a product name up in the enriched catalog.  The
    lookup fails exactly when no row of the product file has that name;
    otherwise it returns the first row of the product file with that name,
    so a later row of the same name never supplies the index, and the index
    it supplies is that row's revenue per square inch over the catalog
    average, times 100. *)
Theorem catalog_lookup_returns_first_product_of_that_name :
  forall (productData : list ProductRecord.t) (name : string),
    (findProduct (enrich productData) name = None <->
     ~ In name (map ProductRecord.Product_Name productData))
    /\ forall p, findProduct (enrich productData) name = Some p ->
         exists before after,
           productData = before ++ EnrichedProduct.product p :: after
           /\ EnrichedProduct.Product_Name p = name
           /\ (forall q, In q before -> ProductRecord.Product_Name q <> name)
           /\ EnrichedProduct.spaceEfficiencyIndex p
              = (EnrichedProduct.Product_Sales_Revenue p
                 / EnrichedProduct.Square_Inches p)
                / (sumBy ProductRecord.Product_Sales_Revenue productData
                   / sumBy ProductRecord.Square_Inches productData)
                * 100.
Proof.
  intros productData name. split.
  - rewrite <- (enrich_products productData) at 2. rewrite map_map.
    unfold findProduct. split.
    + intros Hnone Hin. apply in_map_iff in Hin. destruct Hin as (p & Hname & Hp).
      pose proof (find_none _ _ Hnone p Hp) as Hneq. cbn beta in Hneq.
      apply String.eqb_neq in Hneq. apply Hneq. exact Hname.
    + intros Hnot.
      destruct (find _ (enrich productData)) as [p|] eqn:Hfind; [|reflexivity].
      exfalso. apply Hnot. apply find_some in Hfind. destruct Hfind as [Hp Hname].
      apply String.eqb_eq in Hname. apply in_map_iff. exists p. auto.
  - intros p Hfind.
    pose proof (findProduct_Some _ _ _ Hfind) as [Hp Hname].
    unfold findProduct in Hfind.
    destruct (find_split _ _ _ Hfind) as (before & after & Hsplit & _ & Hbefore).
    exists (map EnrichedProduct.product before), (map EnrichedProduct.product after).
    split; [|split; [exact Hname|split]].
    + rewrite <- (enrich_products productData) at 1. rewrite Hsplit.
      rewrite map_app. reflexivity.
    + intros q Hq. apply in_map_iff in Hq. destruct Hq as (e & <- & He).
      apply Hbefore in He. apply String.eqb_neq in He. exact He.
    + apply enrich_index. exact Hp.
Qed.

(* ================================================================== *)
(** * Further properties: segments without revenue *)

(** X17.  A segment whose matched purchase rows all generated zero revenue
    still gets its row: the row's total revenue is zero and its weighted
    average index is NaN, the quotient of a zero or NaN sum by zero, whatever
    the products' indices are. *)
Theorem zero_revenue_segment_has_no_weighted_index :
  forall (customerData : list CustomerRecord.t)
         (productMetrics : list EnrichedProduct.t)
         (row : SegmentAnalysis.t),
    In row (generateSegmentAnalysis customerData productMetrics) ->
    (forall r, In r customerData ->
               matched productMetrics r = true ->
               segmentLabel r = SegmentAnalysis.segment row ->
               (CustomerRecord.Revenue_Generated r =? 0)%float = true) ->
    (SegmentAnalysis.totalRevenue row =? 0)%float = true
    /\ is_nan (SegmentAnalysis.weightedAvgSEI row) = true.
Proof.
  intros customerData productMetrics row Hrow Hzero.
  apply generateSegmentAnalysis_In in Hrow.
  destruct Hrow as ([label records] & Hgroup & ->).
  cbn [segmentRow SegmentAnalysis.segment SegmentAnalysis.totalRevenue
       SegmentAnalysis.weightedAvgSEI] in *.
  assert (Hrecords : forall x, In x records ->
            (SegmentedRecord.Revenue_Generated x =? 0)%float = true).
  { intros x Hx.
    destruct (groupBy_member _ _ _ _ _ Hgroup Hx) as [Hjoined Hlabel].
    apply mapNonNull_In in Hjoined. destruct Hjoined as (r & Hr & Hjoin).
    destruct (joinSegment_Some _ _ _ Hjoin) as (Hmatched & Hrecord & Hsegment).
    unfold SegmentedRecord.Revenue_Generated. rewrite Hrecord.
    apply Hzero; [assumption..|]. congruence. }
  assert (Htotal : (sumBy SegmentedRecord.Revenue_Generated records =? 0)%float = true)
    by (apply sumBy_zero; exact Hrecords).
  split; [exact Htotal|].
  apply Binary64.round1_nan, Binary64.div_zero_by_zero; [|exact Htotal].
  apply sumBy_zeroOrNaN. intros x Hx. apply Binary64.mul_zero_l, Hrecords, Hx.
Qed.

(** The theorem at a free lamp given to Ann. *)
Lemma zero_revenue_segment_has_no_weighted_index_for_ann :
  let customerData := [ purchase "ann@example.com" "Lamp" 1 0 ] in
  let row := SegmentAnalysis.mk "High Income Urban" 1%nat 0 nan 10 0 in
  In row (generateSegmentAnalysis customerData (enrich [lamp; rug]))
  /\ (SegmentAnalysis.totalRevenue row =? 0)%float = true
  /\ is_nan (SegmentAnalysis.weightedAvgSEI row) = true.
Proof.
  intros customerData row.
  assert (Hrow : In row (generateSegmentAnalysis customerData (enrich [lamp; rug])))
    by (vm_compute; left; reflexivity).
  split; [exact Hrow|].
  apply (zero_revenue_segment_has_no_weighted_index customerData
           (enrich [lamp; rug]) row Hrow).
  intros r [<-|[]] _ _. reflexivity.
Defined.
